(** * pipelineopt: the random pipeline search of [Classifier]

    A shallow embedding of [src/pipelineopt/estimator.py].  The class
    [Classifier] drives a grammar walker, evaluates the rendered code into
    a scikit-learn estimator, trains it, scores it on validation data and
    keeps the best candidate.

    The walker, the code renderer, [eval], the estimators, [shuffle] and
    the scoring function are collaborators that live outside the
    repository; they are taken as an interface ([Collaborators]).  A
    Python [float] ([valid_ratio], the scores) is an IEEE 754 binary64
    number, with its rounding, its infinities and its NaN. *)

From Stdlib Require Import String List ZArith QArith Qround Lia Bool.
From Stdlib Require Import Permutation SpecFloat.
Import ListNotations.

Local Open Scope string_scope.
Local Open Scope list_scope.
Local Open Scope Z_scope.

Set Implicit Arguments.

(* ------------------------------------------------------------------ *)
(** ** Exceptions and results *)

(** An exception raised inside a collaborator.  [exn_is_Exception] tells
    whether its class derives from [Exception] (as [ValueError] does) or
    only from [BaseException] (as [KeyboardInterrupt] does). *)
Record foreign_exn : Type := mkForeign {
  exn_class : string;
  exn_is_Exception : bool;
  exn_text : string
}.

(** What a caller of the class can see raised. *)
Inductive exn : Type :=
| AssertionError                     (* the [assert] of [fit] *)
| AttributeError (attr : string)     (* attribute [attr] looked up on [None] *)
| IndexError                         (* list index out of range *)
| Foreign (e : foreign_exn).         (* propagated from a collaborator *)

Definition is_Exception (e : exn) : bool :=
  match e with
  | Foreign f => exn_is_Exception f
  | _ => true
  end.

Inductive result (E A : Type) : Type :=
| Ok (a : A)
| Raise (e : E).

Arguments Ok {E A} a.
Arguments Raise {E A} e.

(* ------------------------------------------------------------------ *)
(** ** Python numbers and sequences *)

(** A Python [float] is a binary64 number: the values of [spec_float]
    that are valid for a mantissa of 53 bits and exponents up to 1024,
    with the operations of the standard ([SFmul], [SFdiv], [SFcompare]),
    which round to nearest, ties to even. *)
Definition float : Type := spec_float.
Definition prec : Z := 53.
Definition emax : Z := 1024.

Definition is_nan (f : float) : bool :=
  match f with
  | S754_nan => true
  | _ => false
  end.

Definition fmul (x y : float) : float := SFmul prec emax x y.
Definition fdiv (x y : float) : float := SFdiv prec emax x y.

(** The double nearest to the integer [z]. *)
Definition float_of_Z (z : Z) : float := binary_normalize prec emax z 0 false.

(** The conversion of an integer operand to [float]; Python refuses an
    integer beyond the largest double. *)
Definition py_float_of_int (z : Z) : result foreign_exn float :=
  match float_of_Z z with
  | S754_infinity _ =>
      Raise (mkForeign "OverflowError" true
               "int too large to convert to float")
  | f => Ok f
  end.

(** A number given as [valid_ratio]: an [int] (the default is [0]) or a
    [float]. *)
Inductive number : Type :=
| PyInt (z : Z)
| PyFloat (f : float).

Coercion PyInt : Z >-> number.

(** [r > 0]; false on NaN. *)
Definition py_gt0 (r : number) : bool :=
  match r with
  | PyInt z => 0 <? z
  | PyFloat f => SFltb (S754_zero false) f
  end.

(** [r == 0]; true on both zeros of [float]. *)
Definition py_eq0 (r : number) : bool :=
  match r with
  | PyInt z => z =? 0
  | PyFloat f => SFeqb f (S754_zero false)
  end.

(** [n * r] for an integer [n]: exact on integers, the rounded product
    of doubles otherwise. *)
Definition py_mul_int (n : Z) (r : number) : result foreign_exn number :=
  match r with
  | PyInt z => Ok (PyInt (n * z))
  | PyFloat f =>
      match py_float_of_int n with
      | Ok x => Ok (PyFloat (fmul x f))
      | Raise e => Raise e
      end
  end.

(** [int(x)]: truncation towards zero; Python refuses NaN and the
    infinities. *)
Definition py_int (x : number) : result foreign_exn Z :=
  match x with
  | PyInt z => Ok z
  | PyFloat S754_nan =>
      Raise (mkForeign "ValueError" true
               "cannot convert float NaN to integer")
  | PyFloat (S754_infinity _) =>
      Raise (mkForeign "OverflowError" true
               "cannot convert float infinity to integer")
  | PyFloat (S754_zero _) => Ok 0
  | PyFloat (S754_finite s m e) =>
      Ok (if s then - Z.shiftl (Zpos m) e else Z.shiftl (Zpos m) e)
  end.

(** [len(l)] as a Python integer. *)
Definition len {A : Type} (l : list A) : Z := Z.of_nat (length l).

(** A slice bound [k] of [l[..k..]] brought into [0 .. len(l)]: a negative
    bound counts from the end, and both are clipped. *)
Definition slice_bound {A : Type} (l : list A) (k : Z) : nat :=
  if k <? 0 then Z.to_nat (Z.max 0 (len l + k))
  else Z.to_nat (Z.min k (len l)).

(** [l[0:k]] *)
Definition slice_to {A : Type} (l : list A) (k : Z) : list A :=
  firstn (slice_bound l k) l.

(** [l[k:]] *)
Definition slice_from {A : Type} (l : list A) (k : Z) : list A :=
  skipn (slice_bound l k) l.

(** The scan of [np.argmax] on doubles.  [bi], [b] are the best index
    and value so far, [i] the index of the head of [l].  An entry
    replaces the best when it is not below or equal to it; a NaN is
    maximal and ends the scan. *)
Fixpoint argmax_from (bi : nat) (b : float) (i : nat) (l : list float)
    : nat :=
  match l with
  | [] => bi
  | x :: t =>
      if SFleb x b then argmax_from bi b (S i) t
      else if is_nan x then i
      else argmax_from i x (S i) t
  end.

(** [np.argmax(l)]; numpy raises [ValueError] on an empty sequence. *)
Definition np_argmax (l : list float) : result foreign_exn nat :=
  match l with
  | [] => Raise (mkForeign "ValueError" true
                   "attempt to get argmax of an empty sequence")
  | x :: t => if is_nan x then Ok 0%nat
              else Ok (argmax_from 0%nat x 1%nat t)
  end.

(** [l[i]] *)
Definition index {A : Type} (l : list A) (i : nat) : result exn A :=
  match nth_error l i with
  | Some a => Ok a
  | None => Raise IndexError
  end.

(** No entry of [l] is NaN, and [idx] is the position of the first
    occurrence of the largest value of [l]. *)
Definition first_maximum (l : list float) (idx : nat) : Prop :=
  (forall x, In x l -> is_nan x = false) /\
  exists s,
    nth_error l idx = Some s /\
    (forall x, In x l -> SFleb x s = true) /\
    (forall j x, (j < idx)%nat -> nth_error l j = Some x ->
                 SFltb x s = true).

(** [idx] is the position of the first NaN of [l]. *)
Definition first_nan (l : list float) (idx : nat) : Prop :=
  nth_error l idx = Some S754_nan /\
  forall j x, (j < idx)%nat -> nth_error l j = Some x -> is_nan x = false.

(** Where [np.argmax] points: at the first NaN when there is one, at
    the first maximum otherwise. *)
Definition argmax_position (l : list float) (idx : nat) : Prop :=
  first_nan l idx \/ first_maximum l idx.

(** The rank of a double that is not NaN: doubles compare as their
    ranks do, lexicographically. *)
Definition rank (f : float) : Z * Z * Z :=
  match f with
  | S754_infinity true => (-2, 0, 0)
  | S754_finite true m e => (-1, - e, - Zpos m)
  | S754_zero _ => (0, 0, 0)
  | S754_nan => (0, 0, 0)
  | S754_finite false m e => (1, e, Zpos m)
  | S754_infinity false => (2, 0, 0)
  end.

Definition rank_lt (a b : Z * Z * Z) : Prop :=
  let '(a1, a2, a3) := a in
  let '(b1, b2, b3) := b in
  a1 < b1 \/ (a1 = b1 /\ (a2 < b2 \/ (a2 = b2 /\ a3 < b3))).

Definition rank_le (a b : Z * Z * Z) : Prop :=
  let '(a1, a2, a3) := a in
  let '(b1, b2, b3) := b in
  a1 < b1 \/ (a1 = b1 /\ (a2 < b2 \/ (a2 = b2 /\ a3 <= b3))).

(** The sign bit of a double is clear, when it has one. *)
Definition nonneg_float (f : float) : Prop :=
  match f with
  | S754_nan => True
  | S754_zero s => s = false
  | S754_infinity s => s = false
  | S754_finite s _ _ => s = false
  end.

(** [floor(n * f)] in exact arithmetic, for the value [m * 2^e] of a
    finite double [f]. *)
Definition floor_of_product (n : Z) (f : float) : Z :=
  match f with
  | S754_finite s m e => Z.shiftl (n * (if s then Zneg m else Zpos m)) e
  | _ => 0
  end.

(** Truthiness of an integer flag. *)
Definition truthy (z : Z) : bool := negb (z =? 0).

(* ------------------------------------------------------------------ *)
(** ** The collaborators

    Each collaborator is a function of its arguments: what it returns,
    or the exception it raises.  [walk] and [as_str] are taken to return
    (a mutation of the walker and a pure rendering); constructing,
    training, predicting, shuffling and scoring may raise. *)

Class Collaborators : Type := {
  row : Type;        (* one row of a feature matrix *)
  label : Type;      (* one target value *)
  proba : Type;      (* what [predict_proba] returns *)
  walker : Type;     (* the state of a grammar walker *)
  terminal : Type;
  model : Type;      (* an estimator object *)
  (* [wl.walk()] advances the walker; [wl.terminals] reads the derivation *)
  walk : walker -> walker;
  terminals : walker -> list terminal;
  (* [as_str(terminals)] *)
  as_str : list terminal -> string;
  (* [eval(code)] *)
  py_eval : string -> result foreign_exn model;
  (* [clf.fit(X, y)]: the trained estimator, or the exception raised *)
  clf_fit : model -> list row -> list label -> result foreign_exn model;
  clf_predict : model -> list row -> result foreign_exn (list label);
  clf_predict_proba : model -> list row -> result foreign_exn proba;
  (* [shuffle(X, y, random_state=seed)] *)
  shuffle : Z -> list row -> list label ->
            result foreign_exn (list row * list label)
}.

(** The contract of [sklearn.utils.shuffle] for a seed that it accepts
    (an integer from 0 to 2^32 - 1) on arrays of one length: the same
    permutation of the rows is applied to both. *)
Class ShuffleContract (E : Collaborators) : Prop :=
  shuffle_consistent :
    forall seed (X : list row) (y : list label),
      0 <= seed < 2 ^ 32 ->
      length X = length y ->
      exists X' y',
        shuffle seed X y = Ok (X', y') /\
        length X' = length X /\ length y' = length y /\
        Permutation (combine X y) (combine X' y').

(* ------------------------------------------------------------------ *)
(** ** The estimator object *)

Section Estimator.
Context {E : Collaborators}.

(** The scoring function [(y_true, y_pred) -> float]. *)
Definition scorer : Type :=
  list label -> list label -> result foreign_exn float.

(** The attributes of an instance.  [walker_] is the state of the walker
    object held in [self.walker]; it is advanced in place by [fit]. *)
Record Classifier : Type := mkClassifier {
  nb_iter : Z;
  score : scorer;
  walker_ : walker;
  valid_ratio : number;
  random_state : Z;
  estimators_ : list model;
  scores_ : list float;
  codes_ : list string;
  best_score_ : option float;
  best_estimator_ : option model;
  best_estimator_code_ : option string;
  verbose : Z
}.

(** [Classifier.__init__] *)
Definition init (nb_iter : Z) (score : scorer) (wl : walker)
    (valid_ratio : number) (random_state verbose : Z) : Classifier :=
  {| nb_iter := nb_iter; score := score; walker_ := wl;
     valid_ratio := valid_ratio; random_state := random_state;
     estimators_ := []; scores_ := []; codes_ := [];
     best_score_ := None; best_estimator_ := None;
     best_estimator_code_ := None; verbose := verbose |}.

(** Lines written to standard output. *)
Inductive line : Type :=
| ExceptionOnIteration (i : nat) (code : string)
| ExceptionText (ex : exn)
| IterationLine (i : nat)
| TrainedLine (code : string)
| ScoreLine (s : float)
| BestScoreLine (s : float)
| CodeLine (code : string).

Record world : Type := mkWorld {
  self : Classifier;
  stdout : list line
}.

(** Attribute updates. *)
Definition set_walker (wl : walker) (c : Classifier) : Classifier :=
  mkClassifier (nb_iter c) (score c) wl (valid_ratio c) (random_state c)
    (estimators_ c) (scores_ c) (codes_ c) (best_score_ c)
    (best_estimator_ c) (best_estimator_code_ c) (verbose c).

Definition append_candidate (code : string) (clf : model) (s : float)
    (c : Classifier) : Classifier :=
  mkClassifier (nb_iter c) (score c) (walker_ c) (valid_ratio c)
    (random_state c) (estimators_ c ++ [clf]) (scores_ c ++ [s])
    (codes_ c ++ [code]) (best_score_ c) (best_estimator_ c)
    (best_estimator_code_ c) (verbose c).

Definition set_best_score (s : float) (c : Classifier) : Classifier :=
  mkClassifier (nb_iter c) (score c) (walker_ c) (valid_ratio c)
    (random_state c) (estimators_ c) (scores_ c) (codes_ c) (Some s)
    (best_estimator_ c) (best_estimator_code_ c) (verbose c).

Definition set_best_estimator (m : model) (c : Classifier) : Classifier :=
  mkClassifier (nb_iter c) (score c) (walker_ c) (valid_ratio c)
    (random_state c) (estimators_ c) (scores_ c) (codes_ c) (best_score_ c)
    (Some m) (best_estimator_code_ c) (verbose c).

Definition set_best_estimator_code (code : string) (c : Classifier)
    : Classifier :=
  mkClassifier (nb_iter c) (score c) (walker_ c) (valid_ratio c)
    (random_state c) (estimators_ c) (scores_ c) (codes_ c) (best_score_ c)
    (best_estimator_ c) (Some code) (verbose c).

(* ------------------------------------------------------------------ *)
(** ** Statements: state, output and exceptions *)

Definition M (A : Type) : Type := world -> world * result exn A.

Definition ret {A : Type} (a : A) : M A := fun w => (w, Ok a).

Definition bind {A B : Type} (m : M A) (k : A -> M B) : M B :=
  fun w => match m w with
           | (w', Ok a) => k a w'
           | (w', Raise e) => (w', Raise e)
           end.

Definition raise {A : Type} (e : exn) : M A := fun w => (w, Raise e).

(** A call into a collaborator: its exception propagates. *)
Definition call {A : Type} (r : result foreign_exn A) : M A :=
  fun w => match r with
           | Ok a => (w, Ok a)
           | Raise e => (w, Raise (Foreign e))
           end.

(** An operation of the class itself that may raise. *)
Definition lift {A : Type} (r : result exn A) : M A := fun w => (w, r).

Definition get_self : M Classifier := fun w => (w, Ok (self w)).

Definition update (f : Classifier -> Classifier) : M unit :=
  fun w => (mkWorld (f (self w)) (stdout w), Ok tt).

Definition print (l : line) : M unit :=
  fun w => (mkWorld (self w) (stdout w ++ [l]), Ok tt).

(** [try: m  except Exception as ex: ...]: the exception is handed to the
    handler when its class derives from [Exception], and propagates
    otherwise. *)
Definition try_except {A : Type} (m : M A) : M (exn + A) :=
  fun w => match m w with
           | (w', Ok a) => (w', Ok (inr a))
           | (w', Raise e) =>
               if is_Exception e then (w', Ok (inl e)) else (w', Raise e)
           end.

End Estimator.

Declare Scope py_scope.
Delimit Scope py_scope with py.
Notation "x <- m ;; k" := (bind m (fun x => k))
  (at level 61, m at next level, right associativity) : py_scope.
Notation "m ;;; k" := (bind m (fun _ => k))
  (at level 61, right associativity) : py_scope.

Local Open Scope py_scope.

(* ------------------------------------------------------------------ *)
(** ** [Classifier.fit], [predict] and [predict_proba] *)

Section Fit.
Context {E : Collaborators}.

(** [if self.verbose: m] *)
Definition when_verbose (m : M unit) : M unit :=
  c <- get_self ;;
  if truthy (verbose c) then m else ret tt.

(** The data that the search works on: training features and labels, and
    the validation features and labels, which may still be [None]. *)
Definition split : Type :=
  (list row * list label * option (list row) * option (list label))%type.

(** Lines 86 to 101 of [fit]: which rows train and which validate. *)
Definition resolve_split (c : Classifier) (X : list row) (y : list label)
    (X_valid : option (list row)) (y_valid : option (list label))
    : result foreign_exn split :=
  match X_valid, y_valid with
  | None, None =>
      if py_gt0 (valid_ratio c) then
        match shuffle (random_state c) X y with
        | Raise e => Raise e
        | Ok (X, y) =>
            match py_mul_int (len X) (valid_ratio c) with
            | Raise e => Raise e
            | Ok product =>
                match py_int product with
                | Raise e => Raise e
                | Ok validation_rows =>
                    let nb_train := len X - validation_rows in
                    Ok (slice_to X nb_train, slice_to y nb_train,
                        Some (slice_from X nb_train),
                        Some (slice_from y nb_train))
                end
            end
        end
      else Ok (X, y, Some X, Some y)
  | _, _ => Ok (X, y, X_valid, y_valid)
  end.

(** The body of the [for] loop, for the index [i]. *)
Definition iteration (X_train : list row) (y_train : list label)
    (X_valid : list row) (y_valid : list label) (i : nat) : M unit :=
  update (fun c => set_walker (walk (walker_ c)) c) ;;;
  c <- get_self ;;
  let code := as_str (terminals (walker_ c)) in
  clf <- call (py_eval code) ;;
  trained <- try_except (call (clf_fit clf X_train y_train)) ;;
  match trained with
  | inl ex =>
      when_verbose (print (ExceptionOnIteration i code) ;;;
                    print (ExceptionText ex))
      (* continue *)
  | inr clf =>
      predicted <- call (clf_predict clf X_valid) ;;
      c <- get_self ;;
      s <- call (score c y_valid predicted) ;;
      when_verbose (print (IterationLine i) ;;;
                    print (TrainedLine code) ;;;
                    print (ScoreLine s)) ;;;
      update (append_candidate code clf s)
  end.

(** [for i in l: body(i)] *)
Fixpoint for_each (l : list nat) (body : nat -> M unit) : M unit :=
  match l with
  | [] => ret tt
  | i :: rest => body i ;;; for_each rest body
  end.

(** [range(n)] *)
Definition range (n : Z) : list nat := seq 0 (Z.to_nat n).

(** Lines 126 to 133 of [fit]. *)
Definition select_best : M unit :=
  c <- get_self ;;
  if truthy (len (scores_ c)) then
    idx <- call (np_argmax (scores_ c)) ;;
    s <- lift (index (scores_ c) idx) ;;
    update (set_best_score s) ;;;
    c <- get_self ;;
    m <- lift (index (estimators_ c) idx) ;;
    update (set_best_estimator m) ;;;
    c <- get_self ;;
    code <- lift (index (codes_ c) idx) ;;
    update (set_best_estimator_code code) ;;;
    when_verbose (print (BestScoreLine s) ;;; print (CodeLine code))
  else ret tt.

(** [Classifier.fit(X, y, X_valid, y_valid)] *)
Definition fit (X : list row) (y : list label)
    (X_valid : option (list row)) (y_valid : option (list label)) : M unit :=
  c <- get_self ;;
  data <- call (resolve_split c X y X_valid y_valid) ;;
  match data with
  | (X_train, y_train, Some X_valid, Some y_valid) =>
      c <- get_self ;;
      for_each (range (nb_iter c))
               (iteration X_train y_train X_valid y_valid) ;;;
      select_best
  | _ => raise AssertionError
  end.

(** [Classifier.predict(X)] *)
Definition predict (c : Classifier) (X : list row)
    : result exn (list label) :=
  match best_estimator_ c with
  | None => Raise (AttributeError "predict")
  | Some m =>
      match clf_predict m X with
      | Ok p => Ok p
      | Raise e => Raise (Foreign e)
      end
  end.

(** [Classifier.predict_proba(X)] *)
Definition predict_proba (c : Classifier) (X : list row) : result exn proba :=
  match best_estimator_ c with
  | None => Raise (AttributeError "predict_proba")
  | Some m =>
      match clf_predict_proba m X with
      | Ok p => Ok p
      | Raise e => Raise (Foreign e)
      end
  end.

(** The objects that [__init__] followed by calls of [fit] can produce,
    whether the calls returned or raised. *)
Inductive reachable : Classifier -> Prop :=
| reachable_init : forall n sc wl r seed v,
    reachable (init n sc wl r seed v)
| reachable_fit : forall c out X y Xv yv w' res,
    reachable c ->
    fit X y Xv yv (mkWorld c out) = (w', res) ->
    reachable (self w').


(* ------------------------------------------------------------------ *)
(** ** Predicates on the object *)

(** The constructor parameters other than the walker. *)
Definition same_config (c c' : Classifier) : Prop :=
  nb_iter c' = nb_iter c /\ score c' = score c /\
  valid_ratio c' = valid_ratio c /\ random_state c' = random_state c /\
  verbose c' = verbose c.

Definition same_best (c c' : Classifier) : Prop :=
  best_score_ c' = best_score_ c /\
  best_estimator_ c' = best_estimator_ c /\
  best_estimator_code_ c' = best_estimator_code_ c.

Definition same_candidates (c c' : Classifier) : Prop :=
  codes_ c' = codes_ c /\ estimators_ c' = estimators_ c /\
  scores_ c' = scores_ c.

(** [c'] holds the candidates of [c] followed by the new candidates
    [dc], [de], [ds]. *)
Definition appended (c c' : Classifier) (dc : list string)
    (de : list model) (ds : list float) : Prop :=
  length dc = length de /\ length de = length ds /\
  codes_ c' = codes_ c ++ dc /\
  estimators_ c' = estimators_ c ++ de /\
  scores_ c' = scores_ c ++ ds.

Definition grows (c c' : Classifier) : Prop :=
  exists dc de ds, appended c c' dc de ds.

(** What two objects must share for their loops to do the same. *)
Definition same_search (c1 c2 : Classifier) : Prop :=
  walker_ c1 = walker_ c2 /\ score c1 = score c2.

(** No candidate has been selected. *)
Definition no_best (c : Classifier) : Prop :=
  best_score_ c = None /\ best_estimator_ c = None /\
  best_estimator_code_ c = None.

(** The three candidate lists are parallel. *)
Definition aligned (c : Classifier) : Prop :=
  length (codes_ c) = length (estimators_ c) /\
  length (estimators_ c) = length (scores_ c).

(** The best-of fields of [c] are the entries at [idx]. *)
Definition best_at (c : Classifier) (idx : nat) : Prop :=
  (idx < length (scores_ c))%nat /\
  best_score_ c = nth_error (scores_ c) idx /\
  best_estimator_ c = nth_error (estimators_ c) idx /\
  best_estimator_code_ c = nth_error (codes_ c) idx.


(** The resolution of the data ended without validation features or
    without validation labels. *)
Definition no_validation_data (r : result foreign_exn split) : Prop :=
  exists X_train y_train X_valid y_valid,
    r = Ok (X_train, y_train, X_valid, y_valid) /\
    (X_valid = None \/ y_valid = None).

(** The state of the walker read by the iteration of index [i] of a loop
    started on [wl]: [i + 1] calls of [walk] have been made. *)
Definition walker_at (wl : walker) (i : nat) : walker :=
  Nat.iter (S i) walk wl.

(** The iteration of index [i] reaches the [except] clause: the code
    evaluates to an estimator whose training raises an [Exception]. *)
Definition training_fails (X_train : list row) (y_train : list label)
    (wl : walker) (i : nat) : Prop :=
  exists clf e,
    py_eval (as_str (terminals (walker_at wl i))) = Ok clf /\
    clf_fit clf X_train y_train = Raise e /\
    exn_is_Exception e = true.

(** [c'] is [c] after some further calls of [fit]. *)
Inductive fitted_again (c : Classifier) : Classifier -> Prop :=
| fitted_same : fitted_again c c
| fitted_more : forall c1 out X y Xv yv w' res,
    fitted_again c c1 ->
    fit X y Xv yv (mkWorld c1 out) = (w', res) ->
    fitted_again c (self w').

(** The object [c] with other settings for the split. *)
Definition with_split_settings (r : number) (seed : Z) (c : Classifier)
    : Classifier :=
  mkClassifier (nb_iter c) (score c) (walker_ c) r seed
    (estimators_ c) (scores_ c) (codes_ c) (best_score_ c)
    (best_estimator_ c) (best_estimator_code_ c) (verbose c).

Definition world_with_split_settings (r : number) (seed : Z) (w : world)
    : world :=
  mkWorld (with_split_settings r seed (self w)) (stdout w).

End Fit.

(* ------------------------------------------------------------------ *)
(** ** A small set of collaborators

    Three kinds of estimator, a walker that plays back a list of
    derivations, a shuffle that reverses the rows, and accuracy as the
    score.  The examples run [fit] on them. *)

Module Toy.

Inductive estimator : Type :=
| Always (b : bool)       (* predicts [b] on every row *)
| Fragile                 (* its training raises [ValueError] *)
| Interrupted.            (* its training raises [KeyboardInterrupt] *)

Definition eval_code (code : string) : result foreign_exn estimator :=
  if (code =? "Always(True)")%string then Ok (Always true)
  else if (code =? "Always(False)")%string then Ok (Always false)
  else if (code =? "Fragile()")%string then Ok Fragile
  else if (code =? "Interrupted()")%string then Ok Interrupted
  else Raise (mkForeign "NameError" true code).

Definition train (m : estimator) (X : list Z) (y : list bool)
    : result foreign_exn estimator :=
  match m with
  | Always b => Ok (Always b)
  | Fragile => Raise (mkForeign "ValueError" true "cannot be trained")
  | Interrupted => Raise (mkForeign "KeyboardInterrupt" false EmptyString)
  end.

Definition answer (m : estimator) (X : list Z)
    : result foreign_exn (list bool) :=
  match m with
  | Always b => Ok (map (fun _ => b) X)
  | _ => Raise (mkForeign "NotFittedError" true EmptyString)
  end.

Definition answer_proba (m : estimator) (X : list Z)
    : result foreign_exn (list float) :=
  match m with
  | Always b => Ok (map (fun _ => float_of_Z (if b then 1 else 0)) X)
  | _ => Raise (mkForeign "NotFittedError" true EmptyString)
  end.

Definition reverse_rows (seed : Z) (X : list Z) (y : list bool)
    : result foreign_exn (list Z * list bool) :=
  if (length X =? length y)%nat then Ok (rev X, rev y)
  else Raise (mkForeign "ValueError" true "inconsistent numbers of samples").

(** The derivation just made, and the derivations still to come. *)
Definition tape : Type := (list string * list (list string))%type.

Definition next (t : tape) : tape :=
  match snd t with
  | [] => ([], [])
  | d :: rest => (d, rest)
  end.

Definition toy : Collaborators :=
  {| row := Z; label := bool; proba := list float; walker := tape;
     terminal := string; model := estimator;
     walk := next; terminals := fst; as_str := String.concat EmptyString;
     py_eval := eval_code; clf_fit := train; clf_predict := answer;
     clf_predict_proba := answer_proba; shuffle := reverse_rows |}.

(** The double [a / b] for two integers. *)
Definition ratio (a b : Z) : float := fdiv (float_of_Z a) (float_of_Z b).

(** The fraction of rows on which the prediction is the label; NaN when
    there is no row. *)
Definition accuracy (y_true y_pred : list bool) : float :=
  ratio (len (filter (fun p => Bool.eqb (fst p) (snd p))
                     (combine y_true y_pred)))
        (len y_true).

Definition accuracy_score : @scorer toy :=
  fun y_true y_pred => Ok (accuracy y_true y_pred).

(** A walker that will derive the given codes, one per walk. *)
Definition deriving (codes : list string) : tape :=
  ([], map (fun c => [c]) codes).

(** A new object with [nb_iter], the codes to derive, [valid_ratio] and
    [verbose], in a world that has printed nothing. *)
Definition fresh (n : Z) (codes : list string) (r : number) (v : Z)
    : @world toy :=
  mkWorld (@init toy n accuracy_score (deriving codes) r 42 v) [].

(** Four rows, two rows and one row, with their labels. *)
Definition X4 : list (@row toy) := [1; 2; 3; 4].
Definition y4 : list (@label toy) := [true; true; false; true].
Definition X2 : list (@row toy) := [1; 2].
Definition y2 : list (@label toy) := [true; false].
Definition X1 : list (@row toy) := [1].
Definition y1 : list (@label toy) := [true].

(** [n] rows, all labelled [true]. *)
Definition rows (n : nat) : list (@row toy) := map Z.of_nat (seq 0 n).
Definition trues (n : nat) : list (@label toy) := repeat true n.

End Toy.

(* ------------------------------------------------------------------ *)
(** ** More about the loop, the output and the default walker *)

Section Search.
Context {E : Collaborators}.

(** The code rendered by the iteration of index [i] of a loop started on
    the walker state [wl]. *)
Definition code_at (wl : walker) (i : nat) : string :=
  as_str (terminals (walker_at wl i)).

(** The record [(code, clf, s)] is what lines 108 to 117 compute from
    [code]: the estimator evaluated from [code] and trained on the
    training rows, and its score on the validation rows. *)
Definition scored_candidate (sc : scorer)
    (X_train : list row) (y_train : list label)
    (X_valid : list row) (y_valid : list label)
    (cand : string * model * float) : Prop :=
  let '(code, clf, s) := cand in
  exists clf0 predicted,
    py_eval code = Ok clf0 /\
    clf_fit clf0 X_train y_train = Ok clf /\
    clf_predict clf X_valid = Ok predicted /\
    sc y_valid predicted = Ok s.

(** The iteration of index [i] constructs, trains and scores its
    candidate without an exception. *)
Definition iteration_succeeds (sc : scorer)
    (X_train : list row) (y_train : list label)
    (X_valid : list row) (y_valid : list label)
    (wl : walker) (i : nat) : Prop :=
  exists clf s, scored_candidate sc X_train y_train X_valid y_valid
                  (code_at wl i, clf, s).

(** The candidates as records. *)
Definition records (codes : list string) (estimators : list model)
    (scores : list float) : list (string * model * float) :=
  combine (combine codes estimators) scores.

(** The best-of fields are all unset, or are the entries of the three
    lists at one index. *)
Definition best_in_lists (c : Classifier) : Prop :=
  no_best c \/ exists idx, best_at c idx.

(** The object [c] with another verbosity. *)
Definition with_verbose (v : Z) (c : Classifier) : Classifier :=
  mkClassifier (nb_iter c) (score c) (walker_ c) (valid_ratio c)
    (random_state c) (estimators_ c) (scores_ c) (codes_ c) (best_score_ c)
    (best_estimator_ c) (best_estimator_code_ c) v.

(** An instance together with how it holds its walker: the default
    value of the parameter [walker] of [__init__] is one object, made
    when the class is defined and shared by every instance built without
    a walker of its own. *)
Record instance : Type := mkInstance {
  shares_default_walker : bool;
  attributes : Classifier
}.

(** The process: the state of the default walker object, and what has
    been printed. *)
Record process : Type := mkProcess {
  default_walker : walker;
  printed : list line
}.

(** [Classifier(nb_iter, score, valid_ratio=..., ...)], the parameter
    [walker] left to its default. *)
Definition new_with_default_walker (p : process) (nb_iter : Z)
    (score : scorer) (valid_ratio : number) (random_state verbose : Z)
    : instance :=
  mkInstance true
    (init nb_iter score (default_walker p) valid_ratio random_state verbose).

(** [Classifier(nb_iter, score, walker=wl, ...)] *)
Definition new_with_walker (nb_iter : Z) (score : scorer) (wl : walker)
    (valid_ratio : number) (random_state verbose : Z) : instance :=
  mkInstance false (init nb_iter score wl valid_ratio random_state verbose).

(** [a.fit(X, y, X_valid, y_valid)] in a process: the walker that [fit]
    advances is the default walker object when the instance shares it,
    and the instance's own walker otherwise. *)
Definition fit_in_process (a : instance) (X : list row) (y : list label)
    (X_valid : option (list row)) (y_valid : option (list label))
    (p : process) : instance * process * result exn unit :=
  let c := if shares_default_walker a
           then set_walker (default_walker p) (attributes a)
           else attributes a in
  let '(w', res) := fit X y X_valid y_valid (mkWorld c (printed p)) in
  (mkInstance (shares_default_walker a) (self w'),
   mkProcess (if shares_default_walker a then walker_ (self w')
              else default_walker p)
             (stdout w'),
   res).

End Search.

(* ------------------------------------------------------------------ *)
(** ** Collaborators that fail after the training *)

Module Lenient.

(** The collaborators of [Toy], except that every estimator trains: the
    estimators that cannot predict now fail on the validation rows. *)
Definition lenient : Collaborators :=
  {| row := Z; label := bool; proba := list float; walker := Toy.tape;
     terminal := string; model := Toy.estimator;
     walk := Toy.next; terminals := fst; as_str := String.concat EmptyString;
     py_eval := Toy.eval_code; clf_fit := fun m _ _ => Ok m;
     clf_predict := Toy.answer; clf_predict_proba := Toy.answer_proba;
     shuffle := Toy.reverse_rows |}.

Definition fresh (n : Z) (codes : list string) : @world lenient :=
  mkWorld (@init lenient n (fun y_true y_pred => Ok (Toy.accuracy y_true y_pred))
             (Toy.deriving codes) 0 42 0) [].

(** Accuracy that refuses labels and predictions of different lengths. *)
Definition strict_accuracy_score : @scorer Toy.toy :=
  fun y_true y_pred =>
    if (length y_true =? length y_pred)%nat
    then Ok (Toy.accuracy y_true y_pred)
    else Raise (mkForeign "ValueError" true
                  "inconsistent numbers of samples").

(** The fraction of the rows predicted [true] that are labelled [true],
    written as a plain quotient: NaN when no row is predicted [true]. *)
Definition precision_score : @scorer Toy.toy :=
  fun y_true y_pred =>
    Ok (Toy.ratio
          (len (filter (fun p => andb (fst p) (snd p))
                       (combine y_true y_pred)))
          (len (filter (fun b => b) y_pred))).

(** A new object with the scoring function [sc]. *)
Definition scored_by (sc : @scorer Toy.toy) (n : Z) (codes : list string)
    : @world Toy.toy :=
  mkWorld (@init Toy.toy n sc (Toy.deriving codes) 0 42 0) [].

Definition strict (n : Z) (codes : list string) : @world Toy.toy :=
  mkWorld (@init Toy.toy n strict_accuracy_score (Toy.deriving codes) 0 42 0)
          [].

Definition X4 : list (@row lenient) := [1; 2; 3; 4].
Definition y4 : list (@label lenient) := [true; true; false; true].

(** A process whose default walker will derive two codes, and an
    instance built without a walker of its own. *)
Definition two_codes : @process Toy.toy :=
  @mkProcess Toy.toy (Toy.deriving ["Always(False)"; "Always(True)"]) [].

Definition by_default (p : @process Toy.toy) : @instance Toy.toy :=
  new_with_default_walker p 1 Toy.accuracy_score 0 42 0.

End Lenient.

(* ------------------------------------------------------------------ *)
(** ** Collaborators that draw random numbers

    To compare two runs, what the random generators of the process hand
    out during a run is made explicit: constructing, training and
    predicting may depend on it.  The walker depends on its own state
    only, and [shuffle] on its seed.  A run under the draws [g] is a run
    with the collaborators [run_with R g]. *)

Record RandomCollaborators : Type := {
  r_row : Type;
  r_label : Type;
  r_proba : Type;
  r_walker : Type;
  r_terminal : Type;
  r_model : Type;
  entropy : Type;    (* what the generators yield during one run *)
  r_walk : r_walker -> r_walker;
  r_terminals : r_walker -> list r_terminal;
  r_as_str : list r_terminal -> string;
  r_eval : entropy -> string -> result foreign_exn r_model;
  r_fit : entropy -> r_model -> list r_row -> list r_label ->
          result foreign_exn r_model;
  r_predict : entropy -> r_model -> list r_row ->
              result foreign_exn (list r_label);
  r_predict_proba : entropy -> r_model -> list r_row ->
                    result foreign_exn r_proba;
  r_shuffle : Z -> list r_row -> list r_label ->
              result foreign_exn (list r_row * list r_label)
}.

Definition run_with (R : RandomCollaborators) (g : entropy R)
    : Collaborators :=
  {| row := r_row R; label := r_label R; proba := r_proba R;
     walker := r_walker R; terminal := r_terminal R; model := r_model R;
     walk := r_walk R; terminals := r_terminals R; as_str := r_as_str R;
     py_eval := r_eval R g; clf_fit := r_fit R g;
     clf_predict := r_predict R g; clf_predict_proba := r_predict_proba R g;
     shuffle := r_shuffle R |}.

(** An estimator whose training tosses a coin: it learns to answer the
    face that the generator yields. *)
Module Coin.

Inductive estimator : Type :=
| Untrained
| Answers (b : bool).

Definition eval_code (g : bool) (code : string)
    : result foreign_exn estimator :=
  if (code =? "Coin()")%string then Ok Untrained
  else Raise (mkForeign "NameError" true code).

Definition train (g : bool) (m : estimator) (X : list Z) (y : list bool)
    : result foreign_exn estimator :=
  Ok (Answers g).

Definition answer (g : bool) (m : estimator) (X : list Z)
    : result foreign_exn (list bool) :=
  match m with
  | Answers b => Ok (map (fun _ => b) X)
  | Untrained => Raise (mkForeign "NotFittedError" true EmptyString)
  end.

Definition answer_proba (g : bool) (m : estimator) (X : list Z)
    : result foreign_exn (list float) :=
  match m with
  | Answers b => Ok (map (fun _ => float_of_Z (if b then 1 else 0)) X)
  | Untrained => Raise (mkForeign "NotFittedError" true EmptyString)
  end.

Definition coin : RandomCollaborators :=
  {| r_row := Z; r_label := bool; r_proba := list float;
     r_walker := Toy.tape; r_terminal := string; r_model := estimator;
     entropy := bool;
     r_walk := Toy.next; r_terminals := fst;
     r_as_str := String.concat EmptyString;
     r_eval := eval_code; r_fit := train; r_predict := answer;
     r_predict_proba := answer_proba; r_shuffle := Toy.reverse_rows |}.

(** A new object of one iteration in a run under the draw [g], scored
    by accuracy, whose walker will derive ["Coin()"]. *)
Definition fresh (g : bool) : @world (run_with coin g) :=
  mkWorld (@init (run_with coin g) 1
             (fun y_true y_pred => Ok (Toy.accuracy y_true y_pred))
             (Toy.deriving ["Coin()"]) 0 42 0) [].

Definition X4 (g : bool) : list (@row (run_with coin g)) := [1; 2; 3; 4].
Definition y4 (g : bool) : list (@label (run_with coin g)) :=
  [true; true; false; true].

End Coin.

(* ================================================================== *)
(** * Properties *)

(** Unfolds the statements of the embedding down to matches on what the
    collaborators return. *)
Ltac run :=
  unfold when_verbose, bind, call, lift, try_except, get_self, update,
         print, ret, raise in *;
  simpl in *.

Ltac split_match :=
  match goal with
  | |- context [match ?x with _ => _ end] => destruct x eqn:?
  | H : context [match ?x with _ => _ end] |- _ => destruct x eqn:?
  end.

Ltac stepped :=
  repeat (split_match; simpl in *; try discriminate);
  repeat match goal with
         | H : (_, _) = (_, _) |- _ => inversion H; subst; clear H
         | H : Ok _ = Ok _ |- _ => inversion H; subst; clear H
         | H : Raise _ = Raise _ |- _ => inversion H; subst; clear H
         end;
  simpl in *.

(* ------------------------------------------------------------------ *)
(** ** What a call of [fit] leaves alone *)

Section Frame.
Context {E : Collaborators}.


Lemma grows_refl c c' : same_candidates c c' -> grows c c'.
Proof.
  intros (Hc & He & Hs). exists [], [], [].
  repeat split; rewrite ?app_nil_r; assumption.
Qed.

Lemma grows_trans c1 c2 c3 : grows c1 c2 -> grows c2 c3 -> grows c1 c3.
Proof.
  intros (dc & de & ds & L1 & L2 & Hc & He & Hs)
         (dc' & de' & ds' & L1' & L2' & Hc' & He' & Hs').
  exists (dc ++ dc'), (de ++ de'), (ds ++ ds').
  repeat split.
  - rewrite !length_app. congruence.
  - rewrite !length_app. congruence.
  - rewrite Hc', Hc, app_assoc. reflexivity.
  - rewrite He', He, app_assoc. reflexivity.
  - rewrite Hs', Hs, app_assoc. reflexivity.
Qed.

Lemma grows_aligned c c' : aligned c -> grows c c' -> aligned c'.
Proof.
  intros (A1 & A2) (dc & de & ds & L1 & L2 & Hc & He & Hs).
  unfold aligned. rewrite Hc, He, Hs, !length_app. split; congruence.
Qed.

Lemma same_config_trans c1 c2 c3 :
  same_config c1 c2 -> same_config c2 c3 -> same_config c1 c3.
Proof. unfold same_config. intuition congruence. Qed.

Lemma same_best_trans c1 c2 c3 :
  same_best c1 c2 -> same_best c2 c3 -> same_best c1 c3.
Proof. unfold same_best. intuition congruence. Qed.

End Frame.



(** Two results recorded for one call are the same result. *)
Ltac same_calls :=
  repeat match goal with
         | H1 : ?t = _, H2 : ?t = _ |- _ =>
             rewrite H1 in H2; inversion H2; subst; clear H2
         end.

Section Loop.
Context {E : Collaborators}.
Variables (X_train : list row) (y_train : list label).
Variables (X_valid : list row) (y_valid : list label).

Let body := iteration X_train y_train X_valid y_valid.

(** One iteration appends at most one candidate and touches neither the
    configuration nor the best-of fields. *)
Lemma iteration_frame i w w' r :
  body i w = (w', r) ->
  same_config (self w) (self w') /\ same_best (self w) (self w') /\
  exists dc de ds,
    appended (self w) (self w') dc de ds /\ (length ds <= 1)%nat.
Proof.
  unfold body, iteration. run. intros H. stepped;
    (split; [repeat split | split; [repeat split |]]);
    first [ solve [ exists [], [], []; unfold appended; simpl;
                    rewrite ?app_nil_r; repeat split; auto ]
          | solve [ eexists [_], [_], [_]; unfold appended; simpl;
                    repeat split; auto ] ].
Qed.

Lemma for_each_frame l : forall w w' r,
  for_each l body w = (w', r) ->
  same_config (self w) (self w') /\ same_best (self w) (self w') /\
  grows (self w) (self w').
Proof.
  induction l as [|i rest IH]; simpl; intros w w' r H.
  - inversion H; subst. repeat split. apply grows_refl. repeat split.
  - unfold bind in H. destruct (body i w) as [w1 r1] eqn:Hi.
    apply iteration_frame in Hi.
    destruct Hi as (C1 & B1 & dc & de & ds & A1 & _).
    assert (G1 : grows (self w) (self w1)) by (exists dc, de, ds; exact A1).
    destruct r1.
    + apply IH in H. destruct H as (C2 & B2 & G2).
      split; [eapply same_config_trans; eassumption|].
      split; [eapply same_best_trans; eassumption|].
      eapply grows_trans; eassumption.
    + inversion H; subst. auto.
Qed.

(** The loop raises only what a collaborator raised. *)
Lemma iteration_raises i w w' e :
  body i w = (w', Raise e) -> exists f, e = Foreign f.
Proof.
  unfold body, iteration. run. intros H. stepped; eauto.
Qed.

Lemma for_each_raises l : forall w w' e,
  for_each l body w = (w', Raise e) -> exists f, e = Foreign f.
Proof.
  induction l as [|i rest IH]; simpl; intros w w' e H.
  - discriminate.
  - unfold bind in H. destruct (body i w) as [w1 [[]|e1]] eqn:Hi.
    + eauto.
    + inversion H; subst. eauto using iteration_raises.
Qed.

(** An iteration whose training raises an [Exception] returns normally
    and appends nothing. *)
Lemma iteration_skips i w clf e :
  py_eval (as_str (terminals (walk (walker_ (self w))))) = Ok clf ->
  clf_fit clf X_train y_train = Raise e ->
  exn_is_Exception e = true ->
  exists w',
    body i w = (w', Ok tt) /\
    same_candidates (self w) (self w') /\
    same_best (self w) (self w') /\
    same_config (self w) (self w') /\
    walker_ (self w') = walk (walker_ (self w)) /\
    (truthy (verbose (self w)) = false -> stdout w' = stdout w).
Proof.
  intros Hev Htr Hex. unfold body, iteration. run.
  rewrite Hev. simpl. rewrite Htr. simpl. rewrite Hex. simpl.
  destruct (truthy (verbose (self w))) eqn:Hv; eexists;
    (split; [reflexivity|]); simpl; repeat split; congruence.
Qed.

End Loop.

(* ------------------------------------------------------------------ *)
(** ** The selection of the best candidate *)


(** Comparisons of doubles, through their ranks. *)
Ltac by_rank :=
  split; intros;
  first [ discriminate | reflexivity | lia | exfalso; lia ].

Lemma SFltb_rank x y :
  is_nan x = false -> is_nan y = false ->
  (SFltb x y = true <-> rank_lt (rank x) (rank y)).
Proof.
  destruct x as [sx|sx| |sx mx ex], y as [sy|sy| |sy my ey];
    intros Hx Hy; try discriminate;
    try destruct sx; try destruct sy;
    unfold SFltb, SFcompare, rank, rank_lt;
    try solve [by_rank].
  - change (Pos.compare_cont Eq mx my) with (Pos.compare mx my).
    destruct (Z.compare_spec ex ey); destruct (Pos.compare_spec mx my);
      simpl; by_rank.
  - change (Pos.compare_cont Eq mx my) with (Pos.compare mx my).
    destruct (Z.compare_spec ex ey); destruct (Pos.compare_spec mx my);
      simpl; by_rank.
Qed.

Lemma SFleb_rank x y :
  is_nan x = false -> is_nan y = false ->
  (SFleb x y = true <-> rank_le (rank x) (rank y)).
Proof.
  destruct x as [sx|sx| |sx mx ex], y as [sy|sy| |sy my ey];
    intros Hx Hy; try discriminate;
    try destruct sx; try destruct sy;
    unfold SFleb, SFcompare, rank, rank_le;
    try solve [by_rank].
  - change (Pos.compare_cont Eq mx my) with (Pos.compare mx my).
    destruct (Z.compare_spec ex ey); destruct (Pos.compare_spec mx my);
      simpl; by_rank.
  - change (Pos.compare_cont Eq mx my) with (Pos.compare mx my).
    destruct (Z.compare_spec ex ey); destruct (Pos.compare_spec mx my);
      simpl; by_rank.
Qed.

(** A comparison with NaN is false. *)
Lemma SFleb_not_nan x y :
  SFleb x y = true -> is_nan x = false /\ is_nan y = false.
Proof. destruct x, y; simpl; auto; discriminate. Qed.

Lemma SFltb_not_nan x y :
  SFltb x y = true -> is_nan x = false /\ is_nan y = false.
Proof. destruct x, y; simpl; auto; discriminate. Qed.

Lemma is_nan_true x : is_nan x = true -> x = S754_nan.
Proof. destruct x; simpl; congruence. Qed.

Ltac ranked :=
  repeat match goal with
         | H : SFleb ?x ?y = true |- _ =>
             apply SFleb_rank in H; [|assumption|assumption]
         | H : SFltb ?x ?y = true |- _ =>
             apply SFltb_rank in H; [|assumption|assumption]
         end;
  try (apply SFleb_rank; [assumption|assumption|]);
  try (apply SFltb_rank; [assumption|assumption|]);
  unfold rank_lt, rank_le in *;
  repeat match goal with
         | |- context [rank ?x] => destruct (rank x) as [[? ?] ?]
         | H : context [rank ?x] |- _ => destruct (rank x) as [[? ?] ?]
         end.

Lemma SFleb_refl x : is_nan x = false -> SFleb x x = true.
Proof. intros Hx. ranked. lia. Qed.

Lemma SFleb_total x y :
  is_nan x = false -> is_nan y = false ->
  SFleb x y = false -> SFltb y x = true.
Proof.
  intros Hx Hy Hle.
  assert (Hn : ~ rank_le (rank x) (rank y)).
  { intros H. apply SFleb_rank in H; [congruence|assumption|assumption]. }
  ranked. lia.
Qed.

Lemma SFltb_leb x y : SFltb x y = true -> SFleb x y = true.
Proof.
  intros H. destruct (SFltb_not_nan _ _ H) as (Hx & Hy). ranked. lia.
Qed.

Lemma SFleb_ltb_trans x y z :
  SFleb x y = true -> SFltb y z = true -> SFltb x z = true.
Proof.
  intros H1 H2. destruct (SFleb_not_nan _ _ H1) as (Hx & Hy).
  destruct (SFltb_not_nan _ _ H2) as (_ & Hz). ranked. lia.
Qed.

(** The scan, started after the prefix [pre] whose first maximum is at
    [bi], ends where [np.argmax] points in the whole list. *)
Lemma argmax_from_position l : forall pre bi b,
  nth_error pre bi = Some b ->
  (forall x, In x pre -> is_nan x = false) ->
  (forall x, In x pre -> SFleb x b = true) ->
  (forall j x, (j < bi)%nat -> nth_error pre j = Some x ->
               SFltb x b = true) ->
  argmax_position (pre ++ l) (argmax_from bi b (length pre) l).
Proof.
  induction l as [|x t IH]; intros pre bi b Hb Hnan Hmax Hfirst; simpl.
  - rewrite app_nil_r. right. split; [exact Hnan|]. exists b. auto.
  - assert (Hlt : (bi < length pre)%nat)
      by (apply nth_error_Some; congruence).
    assert (Hbn : is_nan b = false)
      by (apply Hnan; eapply nth_error_In; eauto).
    assert (Hshift : pre ++ x :: t = (pre ++ [x]) ++ t)
      by (rewrite <- app_assoc; reflexivity).
    assert (Hlen : S (length pre) = length (pre ++ [x]))
      by (rewrite length_app; simpl; lia).
    destruct (SFleb x b) eqn:Hx; [|destruct (is_nan x) eqn:Hxn].
    + destruct (SFleb_not_nan _ _ Hx) as (Hxn & _).
      rewrite Hshift, Hlen. apply IH.
      * rewrite nth_error_app1 by lia. exact Hb.
      * intros z Hz. apply in_app_or in Hz. destruct Hz as [Hz|[<-|[]]]; auto.
      * intros z Hz. apply in_app_or in Hz. destruct Hz as [Hz|[<-|[]]]; auto.
      * intros j z Hj Hz. rewrite nth_error_app1 in Hz by lia. eauto.
    + left. apply is_nan_true in Hxn. subst x. split.
      * rewrite nth_error_app2, Nat.sub_diag by lia. reflexivity.
      * intros j z Hj Hz. rewrite nth_error_app1 in Hz by lia.
        apply Hnan. eapply nth_error_In; eauto.
    + pose proof (SFleb_total _ _ Hxn Hbn Hx) as Hbx.
      rewrite Hshift, Hlen. apply IH.
      * rewrite nth_error_app2, Nat.sub_diag by lia. reflexivity.
      * intros z Hz. apply in_app_or in Hz. destruct Hz as [Hz|[<-|[]]]; auto.
      * intros z Hz. apply in_app_or in Hz. destruct Hz as [Hz|[<-|[]]].
        -- apply SFltb_leb. eapply SFleb_ltb_trans; [apply Hmax|]; eauto.
        -- apply SFleb_refl. exact Hxn.
      * intros j z Hj Hz. rewrite nth_error_app1 in Hz by lia.
        eapply SFleb_ltb_trans; [apply Hmax|exact Hbx].
        eapply nth_error_In; eauto.
Qed.

(** [np.argmax] of a non-empty list points at its first NaN, or at its
    first maximum when it has no NaN. *)
Lemma np_argmax_position l :
  l <> [] -> exists idx, np_argmax l = Ok idx /\ argmax_position l idx.
Proof.
  destruct l as [|x t]; [congruence|]. intros _. simpl.
  destruct (is_nan x) eqn:Hx.
  - exists 0%nat. split; [reflexivity|]. left.
    apply is_nan_true in Hx. subst x. split; [reflexivity|].
    intros j z Hj. lia.
  - eexists; split; [reflexivity|].
    apply argmax_from_position with (pre := [x]).
    + reflexivity.
    + intros z [<-|[]]. exact Hx.
    + intros z [<-|[]]. apply SFleb_refl. exact Hx.
    + intros j z Hj. lia.
Qed.

Lemma argmax_position_lt l idx :
  argmax_position l idx -> (idx < length l)%nat.
Proof.
  intros [(Hs & _)|(_ & s & Hs & _)]; apply nth_error_Some; congruence.
Qed.

(** Without a NaN, [np.argmax] points at the first maximum. *)
Lemma argmax_position_without_nan l idx :
  argmax_position l idx ->
  (forall x, In x l -> is_nan x = false) ->
  first_maximum l idx.
Proof.
  intros [(Hs & _)|H] Hnan; [|exact H].
  apply nth_error_In in Hs. apply Hnan in Hs. discriminate.
Qed.

Section Selection.
Context {E : Collaborators}.


(** On an object without candidates the selection does nothing. *)
Lemma select_best_empty w :
  scores_ (self w) = [] -> select_best w = (w, Ok tt).
Proof.
  intros H. unfold select_best. run. rewrite H. simpl.
  destruct w; reflexivity.
Qed.

(** On parallel, non-empty lists the selection returns and sets the
    best-of fields from where [np.argmax] points. *)
Lemma select_best_nonempty w :
  aligned (self w) -> scores_ (self w) <> [] ->
  exists w' idx,
    select_best w = (w', Ok tt) /\
    same_config (self w) (self w') /\
    same_candidates (self w) (self w') /\
    walker_ (self w') = walker_ (self w) /\
    argmax_position (scores_ (self w)) idx /\
    best_at (self w') idx.
Proof.
  intros (A1 & A2) Hne.
  destruct (np_argmax_position Hne) as (idx & Harg & Hmax).
  pose proof (argmax_position_lt Hmax) as Hlt.
  destruct (nth_error (scores_ (self w)) idx) as [s|] eqn:Hs;
    [|apply nth_error_None in Hs; lia].
  destruct (nth_error (estimators_ (self w)) idx) as [m|] eqn:Hm;
    [|apply nth_error_None in Hm; lia].
  destruct (nth_error (codes_ (self w)) idx) as [code|] eqn:Hc;
    [|apply nth_error_None in Hc; lia].
  assert (Htruthy : truthy (len (scores_ (self w))) = true).
  { unfold truthy, len. apply negb_true_iff, Z.eqb_neq.
    destruct (scores_ (self w)); [congruence|simpl; lia]. }
  unfold select_best, index. run. rewrite Htruthy, Harg. simpl.
  rewrite Hs. simpl. rewrite Hm. simpl. rewrite Hc. simpl.
  destruct (truthy (verbose (self w)));
    eexists; exists idx; (split; [reflexivity|]); simpl;
    unfold same_config, same_candidates, best_at; simpl;
    rewrite ?Hs, ?Hm, ?Hc; repeat split; auto.
Qed.

(** The selection never touches the candidates, the configuration or
    the walker. *)
Lemma select_best_frame w w' r :
  select_best w = (w', r) ->
  same_config (self w) (self w') /\ same_candidates (self w) (self w') /\
  walker_ (self w') = walker_ (self w).
Proof.
  unfold select_best, index. run. intros H.
  stepped; unfold same_config, same_candidates; simpl; repeat split.
Qed.

(** The selection raises only on lists that are not parallel. *)
Lemma select_best_raises w w' e :
  select_best w = (w', Raise e) -> e <> AssertionError.
Proof.
  unfold select_best, index. run. intros H.
  stepped; discriminate.
Qed.

(** [fit], as the resolution of the data followed by the loop and the
    selection. *)
Lemma fit_unfold X y Xv yv w :
  fit X y Xv yv w =
  match resolve_split (self w) X y Xv yv with
  | Raise e => (w, Raise (Foreign e))
  | Ok (X_train, y_train, Some X_valid, Some y_valid) =>
      (for_each (range (nb_iter (self w)))
                (iteration X_train y_train X_valid y_valid) ;;;
       select_best) w
  | Ok _ => (w, Raise AssertionError)
  end.
Proof.
  unfold fit. run.
  destruct (resolve_split (self w) X y Xv yv) as [[[[Xt yt] [a|]] [b|]]|e];
    reflexivity.
Qed.

(** A call of [fit] keeps the configuration and only appends
    candidates. *)
Lemma fit_frame X y Xv yv w w' r :
  fit X y Xv yv w = (w', r) ->
  same_config (self w) (self w') /\ grows (self w) (self w').
Proof.
  rewrite fit_unfold. intros H.
  destruct (resolve_split (self w) X y Xv yv) as [[[[Xt yt] [a|]] [b|]]|e];
    try solve [inversion H; subst; split;
               [repeat split | apply grows_refl; repeat split]].
  unfold bind in H.
  destruct (for_each _ _ w) as [w1 r1] eqn:Hloop.
  apply for_each_frame in Hloop. destruct Hloop as (C1 & _ & G1).
  destruct r1.
  - apply select_best_frame in H. destruct H as (C2 & S2 & _). split.
    + eapply same_config_trans; eassumption.
    + eapply grows_trans; [eassumption|apply grows_refl; assumption].
  - inversion H; subst. auto.
Qed.

Lemma reachable_aligned c : reachable c -> aligned c.
Proof.
  induction 1 as [|c out X y Xv yv w' res _ IH Hfit].
  - split; reflexivity.
  - apply fit_frame in Hfit. simpl in Hfit.
    eapply grows_aligned; [exact IH|apply Hfit].
Qed.

(** A call of [fit] that returns with candidates has selected where
    [np.argmax] points in all the scores. *)
Lemma fit_selects X y Xv yv w w' :
  aligned (self w) ->
  fit X y Xv yv w = (w', Ok tt) ->
  scores_ (self w') <> [] ->
  exists idx,
    argmax_position (scores_ (self w')) idx /\ best_at (self w') idx.
Proof.
  intros Hal Hfit Hne. rewrite fit_unfold in Hfit.
  destruct (resolve_split (self w) X y Xv yv)
    as [[[[Xt yt] [a|]] [b|]]|e]; try discriminate.
  unfold bind in Hfit.
  destruct (for_each _ _ w) as [w1 [[]|e1]] eqn:Hloop; [|discriminate].
  apply for_each_frame in Hloop. destruct Hloop as (_ & _ & G).
  pose proof (grows_aligned Hal G) as Hal1.
  pose proof (select_best_frame _ Hfit) as (_ & (_ & _ & Hs) & _).
  rewrite Hs in Hne.
  destruct (select_best_nonempty _ Hal1 Hne)
    as (w2 & idx & Hsel & _ & _ & _ & Hmax & Hbest).
  rewrite Hsel in Hfit. inversion Hfit; subst w2.
  exists idx. rewrite Hs. auto.
Qed.

End Selection.

(* ------------------------------------------------------------------ *)
(** ** Failures inside the loop *)

Section LoopFailures.
Context {E : Collaborators}.

(** C1 (amended).  In an iteration of the search loop, a failure of the
    training that raises an exception derived from [Exception] discards
    the iteration: nothing is appended to [codes_], [estimators_] or
    [scores_], nothing is printed unless [verbose] is set, the iteration
    returns normally and the loop goes on with the next index.  A failure
    while the candidate is constructed from the rendered code is outside
    the [try]: it ends the loop and is raised to the caller, the
    candidates being left as they were.  So does a training that raises
    an exception not derived from [Exception]. *)
Theorem C1_training_failure_is_skipped :
  forall (X_train : list row) (y_train : list label)
         (X_valid : list row) (y_valid : list label)
         (i : nat) (rest : list nat) (w : world),
    (forall clf e,
        py_eval (as_str (terminals (walk (walker_ (self w))))) = Ok clf ->
        clf_fit clf X_train y_train = Raise e ->
        exn_is_Exception e = true ->
        exists w',
          iteration X_train y_train X_valid y_valid i w = (w', Ok tt) /\
          same_candidates (self w) (self w') /\
          walker_ (self w') = walk (walker_ (self w)) /\
          (truthy (verbose (self w)) = false -> stdout w' = stdout w) /\
          for_each (i :: rest) (iteration X_train y_train X_valid y_valid) w
          = for_each rest (iteration X_train y_train X_valid y_valid) w')
    /\
    (forall e,
        py_eval (as_str (terminals (walk (walker_ (self w))))) = Raise e ->
        exists w',
          for_each (i :: rest) (iteration X_train y_train X_valid y_valid) w
          = (w', Raise (Foreign e)) /\
          same_candidates (self w) (self w'))
    /\
    (forall clf e,
        py_eval (as_str (terminals (walk (walker_ (self w))))) = Ok clf ->
        clf_fit clf X_train y_train = Raise e ->
        exn_is_Exception e = false ->
        exists w',
          for_each (i :: rest) (iteration X_train y_train X_valid y_valid) w
          = (w', Raise (Foreign e)) /\
          same_candidates (self w) (self w')).
Proof.
  intros X_train y_train X_valid y_valid i rest w. split; [|split].
  - intros clf e Hev Htr Hex.
    destruct (iteration_skips X_train y_train X_valid y_valid i w Hev Htr Hex)
      as (w' & Hit & Hc & _ & _ & Hw & Hout).
    exists w'. repeat split; try apply Hc; auto.
    simpl. unfold bind at 1. rewrite Hit. reflexivity.
  - intros e Hev. simpl. unfold bind at 1. unfold iteration. run.
    rewrite Hev. simpl. eexists. split; [reflexivity|].
    simpl. repeat split.
  - intros clf e Hev Htr Hex. simpl. unfold bind at 1. unfold iteration. run.
    rewrite Hev. simpl. rewrite Htr. simpl. rewrite Hex.
    eexists. split; [reflexivity|]. simpl. repeat split.
Qed.

End LoopFailures.

(* ------------------------------------------------------------------ *)
(** ** The precondition of [fit] *)

Section Precondition.
Context {E : Collaborators}.

(** Validation data is missing after the resolution exactly when one of
    [X_valid], [y_valid] was given without the other. *)
Lemma no_validation_data_iff c X y Xv yv :
  no_validation_data (resolve_split c X y Xv yv) <->
  (Xv = None /\ yv <> None) \/ (Xv <> None /\ yv = None).
Proof.
  unfold no_validation_data, resolve_split. split.
  - intros (Xt & yt & a & b & Hr & Hnone).
    destruct Xv, yv; stepped;
      try (destruct Hnone; discriminate);
      first [ left; split; congruence | right; split; congruence ].
  - intros [[-> Hy]|[Hx ->]].
    + destruct yv as [b|]; [|congruence].
      exists X, y, None, (Some b). auto.
    + destruct Xv as [a|]; [|congruence].
      exists X, y, (Some a), None. auto.
Qed.

(** C2.  [fit] raises the [AssertionError] of its [assert] exactly when
    the resolution of [X_valid], [y_valid] and of the [valid_ratio] split
    ends without validation features or labels, which is when only one of
    [X_valid], [y_valid] was given.  The failure comes before anything
    else: the walker has not moved, no candidate was added and nothing
    was printed.  When the validation data is resolved, this failure is
    not raised. *)
Theorem C2_precondition_failure :
  forall (X : list row) (y : list label)
         (X_valid : option (list row)) (y_valid : option (list label))
         (w : world),
    (snd (fit X y X_valid y_valid w) = Raise AssertionError <->
     no_validation_data (resolve_split (self w) X y X_valid y_valid)) /\
    (snd (fit X y X_valid y_valid w) = Raise AssertionError <->
     (X_valid = None /\ y_valid <> None) \/
     (X_valid <> None /\ y_valid = None)) /\
    (snd (fit X y X_valid y_valid w) = Raise AssertionError ->
     fst (fit X y X_valid y_valid w) = w).
Proof.
  intros X y Xv yv w.
  assert (Hmain :
    (snd (fit X y Xv yv w) = Raise AssertionError <->
     no_validation_data (resolve_split (self w) X y Xv yv)) /\
    (snd (fit X y Xv yv w) = Raise AssertionError ->
     fst (fit X y Xv yv w) = w)).
  { rewrite fit_unfold. unfold no_validation_data.
    destruct (resolve_split (self w) X y Xv yv)
      as [[[[Xt yt] [a|]] [b|]]|e]; simpl.
    - (* the data is there: whatever is raised comes from the loop or
         from the selection *)
      assert (Hno : snd ((for_each (range (nb_iter (self w)))
                            (iteration Xt yt a b) ;;; select_best) w)
                    <> Raise AssertionError).
      { unfold bind.
        destruct (for_each _ _ w) as [w1 [[]|e1]] eqn:Hloop.
        - destruct (select_best w1) as [w2 [[]|e2]] eqn:Hsel; simpl;
            [discriminate|].
          apply select_best_raises in Hsel. congruence.
        - apply for_each_raises in Hloop. destruct Hloop as (f & ->).
          simpl. discriminate. }
      split; [split|]; try (intros H; contradiction).
      intros (? & ? & ? & ? & Heq & [->| ->]); discriminate.
    - split; [split|]; auto. intros _. do 4 eexists. eauto.
    - split; [split|]; auto. intros _. do 4 eexists. eauto.
    - split; [split|]; auto. intros _. do 4 eexists. eauto.
    - split; [split|]; try discriminate.
      intros (? & ? & ? & ? & Heq & _). discriminate. }
  destruct Hmain as (H1 & H2). split; [exact H1|]. split; [|exact H2].
  rewrite H1. apply no_validation_data_iff.
Qed.

End Precondition.

(* ------------------------------------------------------------------ *)
(** ** The best candidate *)

Section Best.
Context {E : Collaborators}.

(** C3 (amended).  After a call of [fit] that returns on parallel
    candidate lists and leaves at least one candidate, [best_score_],
    [best_estimator_] and [best_estimator_code_] are the entries of
    [scores_], [estimators_] and [codes_] at one index, the one where
    [np.argmax] points in [scores_].  When no score is NaN, it is the
    index of the first occurrence of the largest score, and
    [best_score_] is that largest score; when a score is NaN, it is the
    index of the first NaN. *)
Theorem C3_best_is_at_argmax :
  forall (X : list row) (y : list label)
         (X_valid : option (list row)) (y_valid : option (list label))
         (w w' : world),
    aligned (self w) ->
    fit X y X_valid y_valid w = (w', Ok tt) ->
    scores_ (self w') <> [] ->
    exists idx,
      best_at (self w') idx /\
      argmax_position (scores_ (self w')) idx /\
      ((forall x, In x (scores_ (self w')) -> is_nan x = false) ->
       first_maximum (scores_ (self w')) idx) /\
      (forall j, nth_error (scores_ (self w')) j = Some S754_nan ->
                 first_nan (scores_ (self w')) idx).
Proof.
  intros X y Xv yv w w' Hal Hfit Hne.
  destruct (fit_selects _ _ _ _ _ Hal Hfit Hne) as (idx & Hpos & Hbest).
  exists idx. split; [exact Hbest|]. split; [exact Hpos|]. split.
  - apply argmax_position_without_nan. exact Hpos.
  - intros j Hj. destruct Hpos as [Hnan|(Hnone & _)]; [exact Hnan|].
    apply nth_error_In in Hj. apply Hnone in Hj. discriminate.
Qed.

End Best.

(* ------------------------------------------------------------------ *)
(** ** The split into training and validation rows *)

(** Rounding keeps the sign. *)
Lemma binary_round_aux_sign p m sx mx ex lx :
  match binary_round_aux p m sx mx ex lx with
  | S754_nan => True
  | S754_zero s => s = sx
  | S754_infinity s => s = sx
  | S754_finite s _ _ => s = sx
  end.
Proof.
  unfold binary_round_aux.
  destruct (shr_fexp p m mx ex lx) as [mrs' e'].
  destruct (shr_fexp p m _ e' loc_Exact) as [mrs'' e''].
  destruct (shr_m mrs''); [reflexivity| |exact I].
  destruct (Z.leb e'' (Z.sub m p)); reflexivity.
Qed.

Lemma float_of_Z_nonneg z : 0 <= z -> nonneg_float (float_of_Z z).
Proof.
  intros Hz. unfold float_of_Z, binary_normalize.
  destruct z as [|q|q]; [reflexivity| |lia].
  unfold binary_round. destruct (shl_align _ _ _) as [mz ez].
  apply binary_round_aux_sign.
Qed.

Lemma fmul_nonneg x y :
  nonneg_float x -> nonneg_float y -> nonneg_float (fmul x y).
Proof.
  unfold fmul.
  destruct x as [sx|sx| |sx mx ex], y as [sy|sy| |sy my ey];
    simpl; intros Hx Hy; subst; try reflexivity; try exact I.
  apply binary_round_aux_sign.
Qed.

Lemma py_gt0_nonneg f : py_gt0 (PyFloat f) = true -> nonneg_float f.
Proof.
  destruct f as [s|s| |s m e]; try destruct s; simpl;
    intros H; try reflexivity; try exact I; discriminate.
Qed.

(** The number of validation rows asked for by a positive ratio is not
    negative. *)
Lemma validation_rows_nonneg n r p k :
  0 <= n -> py_gt0 r = true ->
  py_mul_int n r = Ok p -> py_int p = Ok k -> 0 <= k.
Proof.
  intros Hn Hr Hp Hk. destruct r as [z|f]; simpl in *.
  - inversion Hp; subst. simpl in Hk. inversion Hk; subst.
    apply Z.ltb_lt in Hr. apply Z.mul_nonneg_nonneg; lia.
  - unfold py_float_of_int in Hp.
    pose proof (float_of_Z_nonneg Hn) as Hx.
    pose proof (fmul_nonneg _ _ Hx (py_gt0_nonneg _ Hr)) as Hm.
    assert (Hpf : p = PyFloat (fmul (float_of_Z n) f))
      by (destruct (float_of_Z n); inversion Hp; reflexivity).
    subst p. destruct (fmul (float_of_Z n) f) as [s|s| |s m e];
      simpl in Hk, Hm; inversion Hk; subst; try lia.
    apply Z.shiftl_nonneg. lia.
Qed.

(** Without rows, no validation row is asked for. *)
Lemma validation_rows_of_nothing r p k :
  py_mul_int 0 r = Ok p -> py_int p = Ok k -> k = 0.
Proof.
  intros Hp Hk. destruct r as [z|f]; simpl in *.
  - inversion Hp; subst. simpl in Hk. inversion Hk. reflexivity.
  - change (py_float_of_int 0) with (@Ok foreign_exn float (S754_zero false))
      in Hp.
    inversion Hp; subst.
    destruct f as [s|s| |s m e]; simpl in Hk; inversion Hk; reflexivity.
Qed.

(** [l[0:k]] and [l[k:]] cut [l] in two, whatever [k] is. *)
Lemma slice_to_from {A : Type} (l : list A) k :
  slice_to l k ++ slice_from l k = l.
Proof. apply firstn_skipn. Qed.

Lemma slice_bound_inside {A : Type} (l : list A) k :
  0 <= k <= len l -> slice_bound l k = Z.to_nat k.
Proof.
  intros Hk. unfold slice_bound.
  destruct (Z.ltb_spec k 0); [lia|]. f_equal. lia.
Qed.

Lemma len_slice_to {A : Type} (l : list A) k :
  0 <= k <= len l -> len (slice_to l k) = k.
Proof.
  intros Hk. unfold slice_to, len in *.
  rewrite slice_bound_inside, length_firstn by (unfold len; lia). lia.
Qed.

Lemma len_slice_from {A : Type} (l : list A) k :
  0 <= k <= len l -> len (slice_from l k) = len l - k.
Proof.
  intros Hk. unfold slice_from, len in *.
  rewrite slice_bound_inside, length_skipn by (unfold len; lia). lia.
Qed.

Lemma slice_from_nonempty {A : Type} (l : list A) k :
  slice_from l k <> [] <-> (slice_bound l k < length l)%nat.
Proof.
  unfold slice_from. split.
  - intros H. destruct (Nat.lt_ge_cases (slice_bound l k) (length l)); auto.
    exfalso. apply H. apply skipn_all2. assumption.
  - intros H Hnil. apply (f_equal (@length A)) in Hnil.
    rewrite length_skipn in Hnil. simpl in Hnil. lia.
Qed.

(** With [f] rows asked for validation, [l[len(l) - f:]] has a row
    exactly when [f] is at least one. *)
Lemma validation_suffix_nonempty {A : Type} (l : list A) f :
  (len l = 0 -> f = 0) ->
  slice_from l (len l - f) <> [] <-> 1 <= f.
Proof.
  intros H0. rewrite slice_from_nonempty. unfold slice_bound.
  unfold len in *. destruct (Z.ltb_spec (Z.of_nat (length l) - f) 0); lia.
Qed.

Section Split.
Context {E : Collaborators}.

(** The split of line 89 to 93, once the number of validation rows is
    computed. *)
Lemma resolve_split_by_ratio c X y X' y' p k :
  py_gt0 (valid_ratio c) = true ->
  shuffle (random_state c) X y = Ok (X', y') ->
  py_mul_int (len X') (valid_ratio c) = Ok p ->
  py_int p = Ok k ->
  resolve_split c X y None None
  = Ok (slice_to X' (len X' - k), slice_to y' (len X' - k),
        Some (slice_from X' (len X' - k)),
        Some (slice_from y' (len X' - k))).
Proof.
  intros Hpos Hsh Hp Hk. unfold resolve_split.
  rewrite Hpos, Hsh, Hp, Hk. reflexivity.
Qed.

(** C4 (amended).  When no validation data is given, [valid_ratio] is
    positive, [random_state] is a seed that [shuffle] accepts and [X]
    and [y] have as many rows, the rows are shuffled by [shuffle] under
    [random_state].  The number of validation rows is
    [int(len(X) * valid_ratio)], computed on doubles: the product is
    rounded to the nearest double and then truncated, which need not be
    [floor(r * rows)].  When that number is computed, the training and
    validation parts are a prefix and the remaining suffix of the
    shuffled rows: together they are the shuffled input, nothing twice
    and nothing left out; when it is at most the number of rows, the
    validation part has exactly that many rows and the training part
    has the others.  When the product or [int] raises, so does
    [fit]. *)
Theorem C4_ratio_split :
  forall (contract : ShuffleContract E) (c : Classifier)
         (X : list row) (y : list label),
    0 <= random_state c < 2 ^ 32 ->
    length X = length y ->
    py_gt0 (valid_ratio c) = true ->
    exists X' y',
      shuffle (random_state c) X y = Ok (X', y') /\
      Permutation (combine X y) (combine X' y') /\
      (forall p k,
          py_mul_int (len X) (valid_ratio c) = Ok p ->
          py_int p = Ok k ->
          exists X_train y_train X_valid y_valid,
            resolve_split c X y None None
            = Ok (X_train, y_train, Some X_valid, Some y_valid) /\
            X_train ++ X_valid = X' /\ y_train ++ y_valid = y' /\
            0 <= k /\
            (k <= len X ->
             len X_valid = k /\ len y_valid = k /\
             len X_train = len X - k /\ len y_train = len X - k) /\
            (forall out,
                fit X y None None (mkWorld c out)
                = (for_each (range (nb_iter c))
                     (iteration X_train y_train X_valid y_valid) ;;;
                   select_best) (mkWorld c out))) /\
      (forall e,
          py_mul_int (len X) (valid_ratio c) = Raise e \/
          (exists p, py_mul_int (len X) (valid_ratio c) = Ok p /\
                     py_int p = Raise e) ->
          forall out,
            fit X y None None (mkWorld c out)
            = (mkWorld c out, Raise (Foreign e))).
Proof.
  intros contract c X y Hseed Hlen Hpos.
  destruct (@shuffle_consistent E contract (random_state c) X y Hseed Hlen)
    as (X' & y' & Hsh & HX & Hy & Hperm).
  assert (HlX : len X' = len X) by (unfold len; congruence).
  assert (Hly : len y' = len X) by (unfold len; congruence).
  exists X', y'. split; [exact Hsh|]. split; [exact Hperm|]. split.
  - intros p k Hp Hk. rewrite <- HlX in Hp.
    pose proof (resolve_split_by_ratio c X y Hpos Hsh Hp Hk) as Hres.
    assert (H0 : 0 <= k).
    { eapply validation_rows_nonneg; [|exact Hpos|exact Hp|exact Hk].
      unfold len. lia. }
    do 4 eexists. split; [exact Hres|].
    split; [apply slice_to_from|]. split; [apply slice_to_from|].
    split; [exact H0|]. split.
    + intros Hle. rewrite !len_slice_from, !len_slice_to by lia.
      repeat split; lia.
    + intros out. rewrite fit_unfold. cbn [self]. rewrite Hres. reflexivity.
  - intros e He out. rewrite fit_unfold. cbn [self].
    unfold resolve_split. rewrite Hpos, Hsh, HlX.
    destruct He as [He|(p & Hp & He)].
    + rewrite He. reflexivity.
    + rewrite Hp, He. reflexivity.
Qed.

(** C5 (amended).  Whenever a call of [fit] scores at least one
    candidate, the validation features and labels it scores on are
    present: they are [X_valid] and [y_valid] as given; or, when none is
    given and [valid_ratio] is not positive, [X] and [y]; or, when
    [valid_ratio] is positive, the suffix of the shuffled rows, which
    has a row exactly when [int(len(X) * valid_ratio)], computed on
    doubles, is at least one.  Nothing makes the validation data
    non-empty beyond that. *)
Theorem C5_validation_present_when_scored :
  forall (X : list row) (y : list label)
         (X_valid : option (list row)) (y_valid : option (list label))
         (w w' : world) (res : result exn unit),
    fit X y X_valid y_valid w = (w', res) ->
    (length (scores_ (self w)) < length (scores_ (self w')))%nat ->
    exists X_train y_train Xv yv,
      resolve_split (self w) X y X_valid y_valid
      = Ok (X_train, y_train, Some Xv, Some yv) /\
      (w', res)
      = (for_each (range (nb_iter (self w))) (iteration X_train y_train Xv yv)
         ;;; select_best) w /\
      (forall a b, X_valid = Some a -> y_valid = Some b -> Xv = a /\ yv = b) /\
      (X_valid = None -> y_valid = None ->
       py_gt0 (valid_ratio (self w)) = false -> Xv = X /\ yv = y) /\
      (X_valid = None -> y_valid = None ->
       py_gt0 (valid_ratio (self w)) = true ->
       exists X' y' p k,
         shuffle (random_state (self w)) X y = Ok (X', y') /\
         py_mul_int (len X') (valid_ratio (self w)) = Ok p /\
         py_int p = Ok k /\
         (Xv <> [] <-> 1 <= k)).
Proof.
  intros X y Xv yv w w' res Hfit Hscored.
  rewrite fit_unfold in Hfit.
  destruct (resolve_split (self w) X y Xv yv)
    as [[[[Xt yt] [a|]] [b|]]|e] eqn:Hres;
    try (inversion Hfit; subst; lia).
  exists Xt, yt, a, b. split; [reflexivity|]. split; [auto|].
  unfold resolve_split in Hres.
  split; [|split].
  - intros a' b' -> ->. inversion Hres. auto.
  - intros -> -> Hr. rewrite Hr in Hres. inversion Hres. auto.
  - intros -> -> Hr. rewrite Hr in Hres.
    destruct (shuffle (random_state (self w)) X y) as [[X' y']|] eqn:Hsh;
      [|discriminate].
    destruct (py_mul_int (len X') (valid_ratio (self w))) as [p|] eqn:Hp;
      [|discriminate].
    destruct (py_int p) as [k|] eqn:Hk; [|discriminate].
    exists X', y', p, k. split; [reflexivity|].
    split; [exact Hp|]. split; [exact Hk|].
    inversion Hres; subst.
    apply validation_suffix_nonempty.
    intros H0. rewrite H0 in Hp.
    eapply validation_rows_of_nothing; eassumption.
Qed.

End Split.

(* ------------------------------------------------------------------ *)
(** ** A run without candidates *)

Section NoCandidate.
Context {E : Collaborators}.

Lemma grows_nil c c' :
  grows c c' -> scores_ c' = [] -> scores_ c = [].
Proof.
  intros (dc & de & ds & _ & _ & _ & _ & Hs) Hnil.
  rewrite Hs in Hnil. apply app_eq_nil in Hnil. tauto.
Qed.

(** A call of [fit] that leaves no candidate leaves the best-of fields
    as they were, whether it returns or raises. *)
Lemma fit_without_candidates X y Xv yv w w' res :
  fit X y Xv yv w = (w', res) ->
  scores_ (self w') = [] ->
  same_best (self w) (self w').
Proof.
  rewrite fit_unfold. intros H Hnil.
  destruct (resolve_split (self w) X y Xv yv) as [[[[Xt yt] [a|]] [b|]]|e];
    try solve [inversion H; subst; repeat split].
  unfold bind in H.
  destruct (for_each _ _ w) as [w1 r1] eqn:Hloop.
  apply for_each_frame in Hloop. destruct Hloop as (_ & B1 & _).
  destruct r1.
  - pose proof (select_best_frame _ H) as (_ & (_ & _ & Hs) & _).
    rewrite Hs in Hnil. rewrite (select_best_empty _ Hnil) in H.
    inversion H; subst. exact B1.
  - inversion H; subst. exact B1.
Qed.

Lemma fitted_again_no_best c c' :
  fitted_again c c' ->
  (scores_ c = [] -> no_best c) ->
  scores_ c' = [] -> no_best c'.
Proof.
  induction 1 as [|c1 out X y Xv yv w' res _ IH Hfit]; intros Hc Hnil.
  - auto.
  - pose proof (fit_without_candidates _ _ _ _ _ Hfit Hnil) as (B1 & B2 & B3).
    apply fit_frame in Hfit. destruct Hfit as (_ & G). simpl in *.
    destruct (IH Hc (grows_nil G Hnil)) as (N1 & N2 & N3).
    unfold no_best. repeat split; congruence.
Qed.

Lemma predict_without_model c X0 :
  best_estimator_ c = None ->
  predict c X0 = Raise (AttributeError "predict") /\
  predict_proba c X0 = Raise (AttributeError "predict_proba").
Proof. unfold predict, predict_proba. intros ->. auto. Qed.

(** A loop all of whose iterations fail in training returns and adds
    nothing. *)
Lemma for_each_all_skipped X_train y_train X_valid y_valid wl m :
  forall k w,
    walker_ (self w) = Nat.iter k walk wl ->
    (forall i, (k <= i < k + m)%nat -> training_fails X_train y_train wl i) ->
    exists w',
      for_each (seq k m) (iteration X_train y_train X_valid y_valid) w
      = (w', Ok tt) /\
      same_candidates (self w) (self w') /\ same_best (self w) (self w').
Proof.
  induction m as [|m IH]; intros k w Hw Hall; simpl.
  - exists w. repeat split.
  - destruct (Hall k) as (clf & e & Hev & Htr & Hex); [lia|].
    unfold walker_at in Hev. simpl in Hev. rewrite <- Hw in Hev.
    destruct (iteration_skips X_train y_train X_valid y_valid k w Hev Htr Hex)
      as (w1 & Hit & (C1 & C2 & C3) & (B1 & B2 & B3) & _ & Hwalk & _).
    destruct (IH (S k) w1) as (w' & Hrest & (C1' & C2' & C3') & (B1' & B2' & B3')).
    { rewrite Hwalk, Hw. reflexivity. }
    { intros i Hi. apply Hall. lia. }
    exists w'. unfold bind at 1. rewrite Hit. split; [exact Hrest|].
    unfold same_candidates, same_best. repeat split; congruence.
Qed.

(** C6 (amended).  On a new object, a call of [fit] all of whose
    iterations fail in training returns without raising and leaves the
    candidate lists empty.  Whenever the candidate lists are empty after a call of [fit]
    on a new object, the fields [best_score_], [best_estimator_] and
    [best_estimator_code_] are still [None], and [predict] and
    [predict_proba] fail on the missing model; they go on failing after
    further calls of [fit] for as long as there is no candidate. *)
Theorem C6_no_candidate_no_model :
  forall (n : Z) (sc : scorer) (wl : walker) (r : number) (seed v : Z)
         (out : list line) (X : list row) (y : list label)
         (X_valid : option (list row)) (y_valid : option (list label)),
    (forall X_train y_train Xv yv,
        resolve_split (init n sc wl r seed v) X y X_valid y_valid
        = Ok (X_train, y_train, Some Xv, Some yv) ->
        (forall i, (i < Z.to_nat n)%nat ->
                   training_fails X_train y_train wl i) ->
        exists w',
          fit X y X_valid y_valid (mkWorld (init n sc wl r seed v) out)
          = (w', Ok tt) /\
          codes_ (self w') = [] /\ estimators_ (self w') = [] /\
          scores_ (self w') = [])
    /\
    (forall w' res,
        fit X y X_valid y_valid (mkWorld (init n sc wl r seed v) out)
        = (w', res) ->
        scores_ (self w') = [] ->
        no_best (self w') /\
        forall c,
          fitted_again (self w') c -> scores_ c = [] ->
          no_best c /\
          forall X0,
            predict c X0 = Raise (AttributeError "predict") /\
            predict_proba c X0 = Raise (AttributeError "predict_proba")).
Proof.
  intros n sc wl r seed v out X y Xv yv. split.
  - intros Xt yt a b Hres Hall. rewrite fit_unfold. cbn [self]. rewrite Hres.
    destruct (@for_each_all_skipped Xt yt a b wl (Z.to_nat n) 0%nat
                (mkWorld (init n sc wl r seed v) out))
      as (w1 & Hloop & (C1 & C2 & C3) & _).
    { reflexivity. }
    { intros i Hi. apply Hall. lia. }
    unfold bind, range. cbn [self nb_iter init]. rewrite Hloop.
    simpl in C1, C2, C3.
    rewrite (select_best_empty _ C3). exists w1. auto.
  - intros w' res Hfit Hnil.
    assert (Hnb : no_best (self w')).
    { pose proof (fit_without_candidates _ _ _ _ _ Hfit Hnil) as (B1 & B2 & B3).
      simpl in *. repeat split; assumption. }
    split; [exact Hnb|].
    intros c Hagain Hc.
    assert (Hnc : no_best c)
      by (eapply fitted_again_no_best; eauto).
    split; [exact Hnc|]. intros X0.
    apply predict_without_model. apply Hnc.
Qed.

End NoCandidate.

(* ------------------------------------------------------------------ *)
(** ** What the settings of the split can change *)

Section SplitSettings.
Context {E : Collaborators}.
Variables (r : number) (seed : Z).

Let lifted := world_with_split_settings r seed.

(** The loop and the selection never read [valid_ratio] or
    [random_state]. *)
Lemma iteration_split_settings Xt yt Xv yv i w :
  iteration Xt yt Xv yv i (lifted w)
  = (lifted (fst (iteration Xt yt Xv yv i w)),
     snd (iteration Xt yt Xv yv i w)).
Proof.
  unfold lifted, world_with_split_settings, iteration. run.
  stepped; same_calls; try discriminate; reflexivity.
Qed.

Lemma for_each_split_settings Xt yt Xv yv l : forall w,
  for_each l (iteration Xt yt Xv yv) (lifted w)
  = (lifted (fst (for_each l (iteration Xt yt Xv yv) w)),
     snd (for_each l (iteration Xt yt Xv yv) w)).
Proof.
  induction l as [|i rest IH]; intros w; simpl.
  - reflexivity.
  - unfold bind. rewrite iteration_split_settings.
    destruct (iteration Xt yt Xv yv i w) as [w1 [[]|e]]; simpl.
    + apply IH.
    + reflexivity.
Qed.

Lemma select_best_split_settings w :
  select_best (lifted w)
  = (lifted (fst (select_best w)), snd (select_best w)).
Proof.
  unfold lifted, world_with_split_settings, select_best, index. run.
  stepped; same_calls; try discriminate; reflexivity.
Qed.

End SplitSettings.

Section Frames.
Context {E : Collaborators}.

(** C7.  When both [X_valid] and [y_valid] are given, they are the
    validation data as they are, [X] and [y] are the training data as
    they are, and [shuffle] is not called.  The settings [valid_ratio]
    and [random_state] have no effect: with any other values for them,
    the call ends in the same way and leaves the same object, up to
    these two settings, and the same output. *)
Theorem C7_explicit_validation_used_as_is :
  forall (c : Classifier) (X : list row) (y : list label)
         (Xv : list row) (yv : list label),
    resolve_split c X y (Some Xv) (Some yv) = Ok (X, y, Some Xv, Some yv) /\
    (forall out,
        fit X y (Some Xv) (Some yv) (mkWorld c out)
        = (for_each (range (nb_iter c)) (iteration X y Xv yv) ;;;
           select_best) (mkWorld c out)) /\
    (forall r seed out,
        fit X y (Some Xv) (Some yv)
            (mkWorld (with_split_settings r seed c) out)
        = (world_with_split_settings r seed
             (fst (fit X y (Some Xv) (Some yv) (mkWorld c out))),
           snd (fit X y (Some Xv) (Some yv) (mkWorld c out)))).
Proof.
  intros c X y Xv yv. split; [reflexivity|]. split.
  - intros out. rewrite fit_unfold. reflexivity.
  - intros r seed out. rewrite !fit_unfold. cbn [self resolve_split].
    change (mkWorld (with_split_settings r seed c) out)
      with (world_with_split_settings r seed (mkWorld c out)).
    unfold bind.
    change (nb_iter (self (world_with_split_settings r seed (mkWorld c out))))
      with (nb_iter (self (mkWorld c out))).
    rewrite for_each_split_settings.
    destruct (for_each _ _ (mkWorld c out)) as [w1 [[]|e]]; simpl.
    + apply select_best_split_settings.
    + reflexivity.
Qed.

(** C8.  When no validation data is given and [valid_ratio] is zero,
    the training features and labels and the validation features and
    labels are [X] and [y] themselves, in the order given, and the loop
    of [fit] runs on them. *)
Theorem C8_full_training_set_validates :
  forall (c : Classifier) (X : list row) (y : list label),
    py_eq0 (valid_ratio c) = true ->
    resolve_split c X y None None = Ok (X, y, Some X, Some y) /\
    (forall out,
        fit X y None None (mkWorld c out)
        = (for_each (range (nb_iter c)) (iteration X y X y) ;;;
           select_best) (mkWorld c out)).
Proof.
  intros c X y Hzero.
  assert (Hpos : py_gt0 (valid_ratio c) = false).
  { destruct (valid_ratio c) as [z|f]; simpl in *.
    - apply Z.eqb_eq in Hzero. subst z. reflexivity.
    - destruct f as [s|s| |s m e]; try destruct s; simpl in *;
        try reflexivity; discriminate. }
  assert (Hres : resolve_split c X y None None = Ok (X, y, Some X, Some y)).
  { unfold resolve_split. rewrite Hpos. reflexivity. }
  split; [exact Hres|].
  intros out. rewrite fit_unfold. cbn [self]. rewrite Hres. reflexivity.
Qed.

End Frames.

(* ------------------------------------------------------------------ *)
(** ** Two runs from the same walker *)

Section Determinism.
Context {E : Collaborators}.

Lemma appended_trans c1 c2 c3 dc de ds dc' de' ds' :
  appended c1 c2 dc de ds -> appended c2 c3 dc' de' ds' ->
  appended c1 c3 (dc ++ dc') (de ++ de') (ds ++ ds').
Proof.
  intros (L1 & L2 & Hc & He & Hs) (L1' & L2' & Hc' & He' & Hs').
  unfold appended. rewrite !length_app, Hc', He', Hs', Hc, He, Hs, !app_assoc.
  repeat split; congruence.
Qed.

Lemma appended_same c1 c2 c3 dc de ds :
  appended c1 c2 dc de ds -> same_candidates c2 c3 ->
  appended c1 c3 dc de ds.
Proof.
  intros (L1 & L2 & Hc & He & Hs) (Hc' & He' & Hs').
  unfold appended. repeat split; congruence.
Qed.

Variables (X_train : list row) (y_train : list label).
Variables (X_valid : list row) (y_valid : list label).

Let body := iteration X_train y_train X_valid y_valid.

(** From the same walker state and with the same scoring function, an
    iteration renders the same code, ends in the same way and appends
    the same candidate, whatever the objects already hold. *)
Lemma iteration_agree i w1 w2 :
  same_search (self w1) (self w2) ->
  exists dc de ds,
    appended (self w1) (self (fst (body i w1))) dc de ds /\
    appended (self w2) (self (fst (body i w2))) dc de ds /\
    (length ds <= 1)%nat /\
    snd (body i w1) = snd (body i w2) /\
    same_search (self (fst (body i w1))) (self (fst (body i w2))).
Proof.
  destruct w1 as [c1 o1], w2 as [c2 o2]. intros (Hw & Hs).
  destruct c1, c2. simpl in Hw, Hs. subst.
  unfold body, iteration, same_search, appended. run.
  stepped; same_calls; try discriminate;
    first [ solve [ exists [], [], []; simpl; rewrite ?app_nil_r;
                    repeat split; auto ]
          | solve [ eexists [_], [_], [_]; simpl; repeat split; auto ] ].
Qed.

Lemma for_each_agree l : forall w1 w2,
  same_search (self w1) (self w2) ->
  exists dc de ds,
    appended (self w1) (self (fst (for_each l body w1))) dc de ds /\
    appended (self w2) (self (fst (for_each l body w2))) dc de ds /\
    (length ds <= length l)%nat /\
    snd (for_each l body w1) = snd (for_each l body w2) /\
    same_search (self (fst (for_each l body w1)))
                (self (fst (for_each l body w2))).
Proof.
  induction l as [|i rest IH]; intros w1 w2 Hsame; simpl.
  - exists [], [], []. unfold appended. simpl. rewrite !app_nil_r.
    repeat split; auto; apply Hsame.
  - destruct (iteration_agree i w1 w2 Hsame)
      as (dc & de & ds & A1 & A2 & L & Hres & Hsame').
    unfold bind.
    destruct (body i w1) as [w1' r1], (body i w2) as [w2' r2].
    simpl in *. subst r2. destruct r1 as [[]|e].
    + destruct (IH w1' w2' Hsame')
        as (dc' & de' & ds' & A1' & A2' & L' & Hres' & Hsame'').
      exists (dc ++ dc'), (de ++ de'), (ds ++ ds').
      split; [eapply appended_trans; eassumption|].
      split; [eapply appended_trans; eassumption|].
      rewrite length_app. repeat split; try lia; try apply Hsame''; auto.
    + exists dc, de, ds. simpl.
      split; [exact A1|]. split; [exact A2|].
      repeat split; try lia; apply Hsame'.
Qed.

End Determinism.

Section Runs.
Context {E : Collaborators}.

(** On parallel lists the selection returns. *)
Lemma select_best_returns w :
  aligned (self w) -> snd (select_best w) = Ok tt.
Proof.
  intros Hal. destruct (scores_ (self w)) eqn:Hs.
  - rewrite (select_best_empty _ Hs). reflexivity.
  - destruct (@select_best_nonempty _ w Hal) as (w' & idx & Hsel & _).
    + congruence.
    + rewrite Hsel. reflexivity.
Qed.

End Runs.

(* ------------------------------------------------------------------ *)
(** ** The properties on the small collaborators *)

Lemma combine_app {A B : Type} (l1 l2 : list A) : forall (m1 m2 : list B),
  length l1 = length m1 ->
  combine (l1 ++ l2) (m1 ++ m2) = combine l1 m1 ++ combine l2 m2.
Proof.
  induction l1 as [|a l1 IH]; intros [|b m1] m2 Hlen;
    simpl in *; try discriminate.
  - reflexivity.
  - f_equal. apply IH. lia.
Qed.

Lemma combine_rev {A B : Type} (l : list A) : forall (m : list B),
  length l = length m -> combine (rev l) (rev m) = rev (combine l m).
Proof.
  induction l as [|a l IH]; intros [|b m] Hlen; simpl in *;
    try discriminate.
  - reflexivity.
  - rewrite combine_app by (rewrite !length_rev; lia).
    rewrite IH by lia. reflexivity.
Qed.

(** Reversing the rows is a shuffle. *)
Lemma reverse_rows_consistent seed (X : list Z) (y : list bool) :
  length X = length y ->
  exists X' y',
    Toy.reverse_rows seed X y = Ok (X', y') /\
    length X' = length X /\ length y' = length y /\
    Permutation (combine X y) (combine X' y').
Proof.
  intros Hlen. exists (rev X), (rev y).
  unfold Toy.reverse_rows.
  destruct (Nat.eqb_spec (length X) (length y)) as [_|Hne]; [|contradiction].
  rewrite !length_rev. repeat split.
  rewrite combine_rev by exact Hlen. apply Permutation_rev.
Defined.

Lemma toy_shuffle_contract : ShuffleContract Toy.toy.
Proof. intros seed X y _. apply reverse_rows_consistent. Defined.

(** A pair is known from its first component and the value of its
    second. *)
Lemma ended_with {A B : Type} (p : A * B) (b : B) :
  snd p = b -> p = (fst p, b).
Proof. destruct p as [a b']. simpl. intros ->. reflexivity. Defined.

Section Examples.
#[local] Existing Instance Toy.toy.

(** C1 is false as stated: a failure while the candidate is constructed
    is raised to the caller of [fit] and the second iteration is never
    run; so is a training interrupted from the keyboard. *)
Lemma C1_construction_failure_is_raised :
  py_eval "Undefined()" = Raise (mkForeign "NameError" true "Undefined()") /\
  snd (fit Toy.X4 Toy.y4 None None
         (Toy.fresh 2 ["Undefined()"; "Always(True)"] 0 0))
  = Raise (Foreign (mkForeign "NameError" true "Undefined()")) /\
  walker_ (self (fst (fit Toy.X4 Toy.y4 None None
                        (Toy.fresh 2 ["Undefined()"; "Always(True)"] 0 0))))
  = (["Undefined()"], [["Always(True)"]]) /\
  snd (fit Toy.X4 Toy.y4 None None
         (Toy.fresh 2 ["Interrupted()"; "Always(True)"] 0 0))
  = Raise (Foreign (mkForeign "KeyboardInterrupt" false EmptyString)).
Proof. repeat split. Qed.

Lemma C1_witness :
  (exists w',
      iteration Toy.X4 Toy.y4 Toy.X4 Toy.y4 0
        (Toy.fresh 2 ["Fragile()"; "Always(True)"] 0 0) = (w', Ok tt) /\
      scores_ (self w') = [] /\
      for_each [0; 1]%nat (iteration Toy.X4 Toy.y4 Toy.X4 Toy.y4)
        (Toy.fresh 2 ["Fragile()"; "Always(True)"] 0 0)
      = for_each [1]%nat (iteration Toy.X4 Toy.y4 Toy.X4 Toy.y4) w') /\
  (exists w',
      for_each [0; 1]%nat (iteration Toy.X4 Toy.y4 Toy.X4 Toy.y4)
        (Toy.fresh 2 ["Undefined()"; "Always(True)"] 0 0)
      = (w', Raise (Foreign (mkForeign "NameError" true "Undefined()")))) /\
  (exists w',
      for_each [0; 1]%nat (iteration Toy.X4 Toy.y4 Toy.X4 Toy.y4)
        (Toy.fresh 2 ["Interrupted()"; "Always(True)"] 0 0)
      = (w', Raise (Foreign
                      (mkForeign "KeyboardInterrupt" false EmptyString)))).
Proof.
  split; [|split].
  - destruct (proj1 (C1_training_failure_is_skipped
                       Toy.X4 Toy.y4 Toy.X4 Toy.y4 0 [1%nat]
                       (Toy.fresh 2 ["Fragile()"; "Always(True)"] 0 0))
                Toy.Fragile
                (mkForeign "ValueError" true "cannot be trained")
                eq_refl eq_refl eq_refl)
      as (w' & Hit & (_ & _ & Hs) & _ & _ & Hloop).
    exists w'. split; [exact Hit|]. split; [exact Hs|exact Hloop].
  - destruct (proj1 (proj2 (C1_training_failure_is_skipped
                       Toy.X4 Toy.y4 Toy.X4 Toy.y4 0 [1%nat]
                       (Toy.fresh 2 ["Undefined()"; "Always(True)"] 0 0)))
                (mkForeign "NameError" true "Undefined()") eq_refl)
      as (w' & Hloop & _).
    exists w'. exact Hloop.
  - destruct (proj2 (proj2 (C1_training_failure_is_skipped
                       Toy.X4 Toy.y4 Toy.X4 Toy.y4 0 [1%nat]
                       (Toy.fresh 2 ["Interrupted()"; "Always(True)"] 0 0)))
                Toy.Interrupted
                (mkForeign "KeyboardInterrupt" false EmptyString)
                eq_refl eq_refl eq_refl)
      as (w' & Hloop & _).
    exists w'. exact Hloop.
Defined.

(** C3 is false as stated: with a scoring function that yields NaN for
    the second candidate, [np.argmax] points at the NaN; [best_score_]
    is NaN and the best estimator is the second one, although the first
    score, three quarters, is the largest. *)
Lemma C3_nan_score_is_selected :
  scores_ (self (fst (fit Toy.X4 Toy.y4 None None
     (Lenient.scored_by Lenient.precision_score 2
        ["Always(True)"; "Always(False)"]))))
  = [Toy.ratio 3 4; S754_nan] /\
  snd (fit Toy.X4 Toy.y4 None None
     (Lenient.scored_by Lenient.precision_score 2
        ["Always(True)"; "Always(False)"])) = Ok tt /\
  best_score_ (self (fst (fit Toy.X4 Toy.y4 None None
     (Lenient.scored_by Lenient.precision_score 2
        ["Always(True)"; "Always(False)"]))))
  = Some S754_nan /\
  best_estimator_code_ (self (fst (fit Toy.X4 Toy.y4 None None
     (Lenient.scored_by Lenient.precision_score 2
        ["Always(True)"; "Always(False)"]))))
  = Some "Always(False)" /\
  SFleb (Toy.ratio 3 4) S754_nan = false.
Proof. vm_compute. repeat split. Qed.

Lemma C3_witness :
  exists idx,
    best_at
      (self (fst (fit Toy.X4 Toy.y4 None None
         (Toy.fresh 3 ["Always(False)"; "Always(True)"; "Always(True)"]
            0 0)))) idx /\
    first_maximum
      (scores_ (self (fst (fit Toy.X4 Toy.y4 None None
         (Toy.fresh 3 ["Always(False)"; "Always(True)"; "Always(True)"]
            0 0))))) idx.
Proof.
  destruct (@C3_best_is_at_argmax Toy.toy Toy.X4 Toy.y4 None None
              (Toy.fresh 3 ["Always(False)"; "Always(True)"; "Always(True)"]
                 0 0)
              (fst (fit Toy.X4 Toy.y4 None None
                 (Toy.fresh 3 ["Always(False)"; "Always(True)";
                               "Always(True)"] 0 0))))
    as (idx & Hbest & _ & Hmax & _).
  - split; reflexivity.
  - apply ended_with. vm_compute. reflexivity.
  - vm_compute. discriminate.
  - exists idx. split; [exact Hbest|]. apply Hmax.
    vm_compute. intros x [<-|[<-|[<-|[]]]]; reflexivity.
Defined.

(** C4 is false as stated.  With a ratio of three halves and two rows,
    [floor(r * rows)] is three, and the validation part has one row.
    With the double 0.29 and a hundred rows the product is rounded below
    29 and the validation part has 28 rows, where [floor(0.29 * 100)] is
    29.  With the double 0.3 and ten rows the product is rounded up to 3
    and the validation part has three rows, where the floor of ten times
    the exact value of that double is two. *)
Lemma C4_sizes_are_not_the_floor :
  (resolve_split (self (Toy.fresh 1 [] (PyFloat (Toy.ratio 3 2)) 0))
     Toy.X2 Toy.y2 None None
   = Ok ([2], [false], Some [1], Some [true]) /\
   floor_of_product (len Toy.X2) (Toy.ratio 3 2) = 3) /\
  (exists X_train y_train X_valid y_valid,
      resolve_split (self (Toy.fresh 1 [] (PyFloat (Toy.ratio 29 100)) 0))
        (Toy.rows 100) (Toy.trues 100) None None
      = Ok (X_train, y_train, Some X_valid, Some y_valid) /\
      len X_valid = 28 /\
      Qfloor (inject_Z (len (Toy.rows 100)) * (29 # 100)) = 29) /\
  (exists X_train y_train X_valid y_valid,
      resolve_split (self (Toy.fresh 1 [] (PyFloat (Toy.ratio 3 10)) 0))
        (Toy.rows 10) (Toy.trues 10) None None
      = Ok (X_train, y_train, Some X_valid, Some y_valid) /\
      len X_valid = 3 /\
      floor_of_product (len (Toy.rows 10)) (Toy.ratio 3 10) = 2).
Proof.
  split; [|split].
  - vm_compute. split; reflexivity.
  - do 4 eexists. split; [vm_compute; reflexivity|].
    split; vm_compute; reflexivity.
  - do 4 eexists. split; [vm_compute; reflexivity|].
    split; vm_compute; reflexivity.
Qed.

Lemma C4_witness :
  exists X_train y_train X_valid y_valid,
    resolve_split (self (Toy.fresh 1 [] (PyFloat (Toy.ratio 1 2)) 0))
      Toy.X4 Toy.y4 None None
    = Ok (X_train, y_train, Some X_valid, Some y_valid) /\
    X_train ++ X_valid = rev Toy.X4 /\
    len X_valid = 2 /\ len X_train = 2.
Proof.
  destruct (@C4_ratio_split Toy.toy toy_shuffle_contract
              (self (Toy.fresh 1 [] (PyFloat (Toy.ratio 1 2)) 0))
              Toy.X4 Toy.y4)
    as (X' & y' & Hsh & _ & Hsplit & _).
  - vm_compute. split; [discriminate|reflexivity].
  - reflexivity.
  - reflexivity.
  - destruct (Hsplit (PyFloat (float_of_Z 2)) 2)
      as (Xt & yt & Xv & yv & Hres & HX & _ & _ & Hsize & _).
    + vm_compute. reflexivity.
    + vm_compute. reflexivity.
    + exists Xt, yt, Xv, yv. split; [exact Hres|].
      split.
      { rewrite HX. vm_compute in Hsh. injection Hsh as HX' _.
        symmetry. exact HX'. }
      destruct Hsize as (H1 & _ & H2 & _).
      * vm_compute. discriminate.
      * split; [exact H1|exact H2].
Defined.

(** C5 is false as stated: one row and a ratio of one half leave no row
    for validation, and a candidate is scored all the same; so it is
    when the validation data given is empty. *)
Lemma C5_scored_on_empty_validation :
  (resolve_split (self (Toy.fresh 1 ["Always(True)"] (PyFloat (Toy.ratio 1 2)) 0))
     Toy.X1 Toy.y1 None None
   = Ok (Toy.X1, Toy.y1, Some [], Some []) /\
   scores_ (self (fst (fit Toy.X1 Toy.y1 None None
                         (Toy.fresh 1 ["Always(True)"] (PyFloat (Toy.ratio 1 2)) 0))))
   = [S754_nan]) /\
  (resolve_split (self (Toy.fresh 1 ["Always(True)"] 0 0))
     Toy.X1 Toy.y1 (Some []) (Some [])
   = Ok (Toy.X1, Toy.y1, Some [], Some []) /\
   scores_ (self (fst (fit Toy.X1 Toy.y1 (Some []) (Some [])
                         (Toy.fresh 1 ["Always(True)"] 0 0))))
   = [S754_nan]).
Proof. repeat split. Qed.

Lemma C5_witness :
  exists X_train y_train Xv yv,
    resolve_split (self (Toy.fresh 1 ["Always(True)"] (PyFloat (Toy.ratio 1 2)) 0))
      Toy.X4 Toy.y4 None None
    = Ok (X_train, y_train, Some Xv, Some yv) /\
    Xv <> [].
Proof.
  destruct (C5_validation_present_when_scored
              Toy.X4 Toy.y4 None None
              (Toy.fresh 1 ["Always(True)"] (PyFloat (Toy.ratio 1 2)) 0) eq_refl)
    as (Xt & yt & Xv & yv & Hres & _ & _ & _ & Hratio).
  - simpl. lia.
  - exists Xt, yt, Xv, yv. split; [exact Hres|].
    destruct (Hratio eq_refl eq_refl eq_refl)
      as (X' & y' & p & k & Hsh & Hp & Hk & Hne).
    apply Hne. vm_compute in Hsh. injection Hsh as <- _.
    vm_compute in Hp. injection Hp as <-.
    vm_compute in Hk. injection Hk as <-. lia.
Defined.

(** C6 is false as stated: on a new object, the one iteration fails
    while the candidate is constructed; the candidate lists are empty
    after the call, and the call has raised. *)
Lemma C6_fit_raises_without_candidates :
  scores_ (self (fst (fit Toy.X4 Toy.y4 None None
                        (Toy.fresh 1 ["Undefined()"] 0 0)))) = [] /\
  snd (fit Toy.X4 Toy.y4 None None (Toy.fresh 1 ["Undefined()"] 0 0))
  = Raise (Foreign (mkForeign "NameError" true "Undefined()")).
Proof. split; reflexivity. Qed.

Lemma C6_witness :
  (exists w',
      fit Toy.X4 Toy.y4 None None (Toy.fresh 2 ["Fragile()"; "Fragile()"] 0 0)
      = (w', Ok tt) /\ scores_ (self w') = []) /\
  (forall X0,
      predict (self (fst (fit Toy.X4 Toy.y4 None None
                            (Toy.fresh 2 ["Fragile()"; "Fragile()"] 0 0)))) X0
      = Raise (AttributeError "predict")).
Proof.
  pose proof (C6_no_candidate_no_model 2 Toy.accuracy_score
                (Toy.deriving ["Fragile()"; "Fragile()"]) 0 42 0 []
                Toy.X4 Toy.y4 None None) as (Hall & Hnone).
  split.
  - destruct (Hall Toy.X4 Toy.y4 Toy.X4 Toy.y4 eq_refl)
      as (w' & Hfit & _ & _ & Hs).
    + intros i Hi.
      exists Toy.Fragile, (mkForeign "ValueError" true "cannot be trained").
      destruct i as [|[|i]]; [repeat split..|simpl in Hi; lia].
    + exists w'. split; [exact Hfit|exact Hs].
  - intros X0.
    destruct (Hnone _ _ eq_refl eq_refl) as (_ & Hlater).
    destruct (Hlater _ (fitted_same _) eq_refl) as (_ & Hpred).
    apply Hpred.
Defined.

Lemma C8_witness :
  resolve_split (self (Toy.fresh 1 ["Always(True)"] 0 0)) Toy.X4 Toy.y4
    None None
  = Ok (Toy.X4, Toy.y4, Some Toy.X4, Some Toy.y4).
Proof.
  apply (C8_full_training_set_validates
           (self (Toy.fresh 1 ["Always(True)"] 0 0)) Toy.X4 Toy.y4).
  reflexivity.
Defined.

End Examples.

(* ================================================================== *)
(** * Further properties of the loop, the output and the walker *)

Lemma records_app (dc dc' : list string) {M : Type} (de de' : list M)
    (ds ds' : list float) :
  length dc = length de -> length de = length ds ->
  combine (combine (dc ++ dc') (de ++ de')) (ds ++ ds')
  = combine (combine dc de) ds ++ combine (combine dc' de') ds'.
Proof.
  intros L1 L2. rewrite (combine_app dc dc' de de' L1).
  apply combine_app. rewrite length_combine. lia.
Qed.

Section SearchLoop.
Context {E : Collaborators}.
Variables (X_train : list row) (y_train : list label).
Variables (X_valid : list row) (y_valid : list label).

Let body := iteration X_train y_train X_valid y_valid.

(** Every iteration advances the walker once, however it ends. *)
Lemma iteration_walker i w :
  walker_ (self (fst (body i w))) = walk (walker_ (self w)).
Proof. unfold body, iteration. run. stepped; reflexivity. Qed.

(** The loop advances the walker once per iteration that it starts. *)
Lemma for_each_walker l : forall w,
  exists k,
    (k <= length l)%nat /\
    walker_ (self (fst (for_each l body w)))
    = Nat.iter k walk (walker_ (self w)) /\
    (snd (for_each l body w) = Ok tt -> k = length l).
Proof.
  induction l as [|i rest IH]; intros w; simpl.
  - exists 0%nat. auto.
  - unfold bind. pose proof (iteration_walker i w) as Hw.
    destruct (body i w) as [w1 [[]|e]]; simpl in Hw.
    + destruct (IH w1) as (k & Hk & Hiter & Hok).
      exists (S k). rewrite Nat.iter_succ_r, <- Hw.
      repeat split; try lia; auto.
    + exists 1%nat. simpl. repeat split; try lia; auto. discriminate.
Qed.

(** What one iteration appends is at most one record, computed as lines
    108 to 117 say. *)
Lemma iteration_records i w :
  exists dc de ds,
    appended (self w) (self (fst (body i w))) dc de ds /\
    (length ds <= 1)%nat /\
    Forall (scored_candidate (score (self w))
              X_train y_train X_valid y_valid) (records dc de ds).
Proof.
  unfold body, iteration, appended, records. run.
  stepped;
    first [ solve [ exists [], [], []; simpl; rewrite ?app_nil_r;
                    repeat split; auto ]
          | solve [ eexists [_], [_], [_]; simpl; repeat split; auto;
                    constructor; [|constructor];
                    do 2 eexists; repeat split; eassumption ] ].
Qed.

Lemma for_each_records l : forall w,
  exists dc de ds,
    appended (self w) (self (fst (for_each l body w))) dc de ds /\
    (length ds <= length l)%nat /\
    Forall (scored_candidate (score (self w))
              X_train y_train X_valid y_valid) (records dc de ds).
Proof.
  induction l as [|i rest IH]; intros w; simpl.
  - exists [], [], []. unfold appended. simpl. rewrite !app_nil_r.
    repeat split; auto.
  - destruct (iteration_records i w) as (dc & de & ds & A1 & L1 & F1).
    unfold bind. destruct (body i w) as [w1 r1] eqn:Hit.
    pose proof (iteration_frame _ _ _ _ _ _ Hit) as ((_ & Hsc & _) & _).
    simpl in A1. destruct r1 as [[]|e].
    + destruct (IH w1) as (dc' & de' & ds' & A2 & L2 & F2).
      exists (dc ++ dc'), (de ++ de'), (ds ++ ds').
      split; [eapply appended_trans; eassumption|].
      rewrite length_app. split; [lia|].
      unfold records. destruct A1 as (La & Lb & _).
      rewrite records_app by assumption.
      apply Forall_app. split; [exact F1|].
      rewrite <- Hsc. exact F2.
    + exists dc, de, ds. simpl. repeat split; try apply A1; auto; lia.
Qed.

(** A loop all of whose iterations succeed appends the codes rendered
    from the successive walker states, in order. *)
Lemma for_each_all_succeed wl m : forall j k w,
  walker_ (self w) = Nat.iter k walk wl ->
  (forall i, (k <= i < k + m)%nat ->
             iteration_succeeds (score (self w))
               X_train y_train X_valid y_valid wl i) ->
  exists w' de ds,
    for_each (seq j m) body w = (w', Ok tt) /\
    appended (self w) (self w') (map (code_at wl) (seq k m)) de ds.
Proof.
  induction m as [|m IH]; intros j k w Hw Hall; simpl.
  - exists w, [], []. unfold appended. simpl. rewrite !app_nil_r.
    repeat split.
  - destruct (Hall k) as (clf & s & clf0 & p & Hev & Htr & Hpr & Hsc); [lia|].
    unfold code_at, walker_at in Hev. simpl in Hev. rewrite <- Hw in Hev.
    assert (Hit : exists w1,
      body j w = (w1, Ok tt) /\
      appended (self w) (self w1) [code_at wl k] [clf] [s] /\
      walker_ (self w1) = walk (walker_ (self w)) /\
      score (self w1) = score (self w)).
    { unfold body, iteration, appended, code_at, walker_at. run.
      rewrite Hev. simpl. rewrite Htr. simpl. rewrite Hpr. simpl.
      rewrite Hsc. simpl. rewrite Hw.
      destruct (truthy (verbose (self w))); eexists;
        (split; [reflexivity|]); simpl; repeat split. }
    destruct Hit as (w1 & Hit & A1 & Hw1 & Hsc1).
    destruct (IH (S j) (S k) w1) as (w' & de & ds & Hrest & A2).
    { rewrite Hw1, Hw. reflexivity. }
    { intros i Hi. rewrite Hsc1. apply Hall. lia. }
    exists w', (clf :: de), (s :: ds). unfold bind. rewrite Hit.
    split; [exact Hrest|].
    apply (appended_trans A1 A2).
Qed.

End SearchLoop.

Section SearchFacts.
Context {E : Collaborators}.

Lemma appended_nothing (c : Classifier) : appended c c [] [] [].
Proof. unfold appended. simpl. rewrite !app_nil_r. repeat split. Qed.

(** What a call of [fit] appends: at most one record per iteration,
    each computed from the resolved data. *)
Lemma fit_records X y Xv yv w :
  exists dc de ds,
    appended (self w) (self (fst (fit X y Xv yv w))) dc de ds /\
    (length ds <= Z.to_nat (nb_iter (self w)))%nat /\
    forall X_train y_train X_valid y_valid,
      resolve_split (self w) X y Xv yv
      = Ok (X_train, y_train, Some X_valid, Some y_valid) ->
      Forall (scored_candidate (score (self w))
                X_train y_train X_valid y_valid) (records dc de ds).
Proof.
  rewrite fit_unfold.
  destruct (resolve_split (self w) X y Xv yv) as [[[[Xt yt] [a|]] [b|]]|e];
    try solve [exists [], [], []; simpl;
               split; [apply appended_nothing|];
               split; [lia|]; intros; constructor].
  destruct (for_each_records Xt yt a b (range (nb_iter (self w))) w)
    as (dc & de & ds & A & L & F).
  unfold range in L. rewrite length_seq in L.
  exists dc, de, ds. unfold bind.
  destruct (for_each _ _ w) as [w1 [[]|e]]; simpl in A |- *.
  - destruct (select_best w1) as [w2 r2] eqn:Hsel.
    pose proof (select_best_frame _ Hsel) as (_ & Hsame & _). simpl.
    split; [eapply appended_same; eassumption|]. split; [exact L|].
    intros ? ? ? ? Heq. inversion Heq; subst. exact F.
  - split; [exact A|]. split; [exact L|].
    intros ? ? ? ? Heq. inversion Heq; subst. exact F.
Qed.

(** X1.  A call of [fit] appends at most [nb_iter] candidates, and none
    when [nb_iter] is zero or negative; the earlier candidates stay in
    front. *)
Theorem X1_at_most_nb_iter_candidates :
  forall (X : list row) (y : list label)
         (X_valid : option (list row)) (y_valid : option (list label))
         (w : world),
    exists dc de ds,
      appended (self w) (self (fst (fit X y X_valid y_valid w))) dc de ds /\
      (length ds <= Z.to_nat (nb_iter (self w)))%nat.
Proof.
  intros X y Xv yv w.
  destruct (fit_records X y Xv yv w) as (dc & de & ds & A & L & _).
  exists dc, de, ds. auto.
Qed.

(** X2.  Every record that a call of [fit] appends is consistent: its
    estimator is the one evaluated from its code and trained on the
    training part, and its score is the value of the scoring function on
    the validation labels and the predictions of that estimator on the
    validation features. *)
Theorem X2_appended_records_are_consistent :
  forall (X : list row) (y : list label)
         (X_valid : option (list row)) (y_valid : option (list label))
         (w : world) (X_train : list row) (y_train : list label)
         (Xv : list row) (yv : list label),
    resolve_split (self w) X y X_valid y_valid
    = Ok (X_train, y_train, Some Xv, Some yv) ->
    exists dc de ds,
      appended (self w) (self (fst (fit X y X_valid y_valid w))) dc de ds /\
      Forall (scored_candidate (score (self w)) X_train y_train Xv yv)
             (records dc de ds).
Proof.
  intros X y Xv0 yv0 w Xt yt Xv yv Hres.
  destruct (fit_records X y Xv0 yv0 w) as (dc & de & ds & A & _ & F).
  exists dc, de, ds. auto.
Qed.

(** How far a call of [fit] moves the walker. *)
Lemma fit_walker X y Xv yv w :
  exists k,
    (k <= Z.to_nat (nb_iter (self w)))%nat /\
    walker_ (self (fst (fit X y Xv yv w)))
    = Nat.iter k walk (walker_ (self w)) /\
    (snd (fit X y Xv yv w) = Ok tt ->
     k = Z.to_nat (nb_iter (self w))).
Proof.
  rewrite fit_unfold.
  destruct (resolve_split (self w) X y Xv yv) as [[[[Xt yt] [a|]] [b|]]|e];
    try solve [exists 0%nat; simpl; repeat split;
               [lia | discriminate]].
  destruct (for_each_walker Xt yt a b (range (nb_iter (self w))) w)
    as (k & Hk & Hw & Hok).
  unfold range in Hk, Hok. rewrite length_seq in Hk, Hok.
  unfold bind.
  destruct (for_each _ _ w) as [w1 [[]|e]]; simpl in Hw, Hok |- *.
  - exists k. destruct (select_best w1) as [w2 r2] eqn:Hsel.
    pose proof (select_best_frame _ Hsel) as (_ & _ & Hsame). simpl.
    repeat split; [exact Hk|congruence|auto].
  - exists k. repeat split; [exact Hk|exact Hw|discriminate].
Qed.


(** X3.  A call of [fit] advances the walker once for each iteration
    that it starts, the iterations that are skipped included: [nb_iter]
    times when the call returns, and at most [nb_iter] times when it
    raises. *)
Theorem X3_walker_advanced_once_per_iteration :
  forall (X : list row) (y : list label)
         (X_valid : option (list row)) (y_valid : option (list label))
         (w : world),
    exists k,
      (k <= Z.to_nat (nb_iter (self w)))%nat /\
      walker_ (self (fst (fit X y X_valid y_valid w)))
      = Nat.iter k walk (walker_ (self w)) /\
      (snd (fit X y X_valid y_valid w) = Ok tt ->
       k = Z.to_nat (nb_iter (self w))).
Proof. intros X y Xv yv w. apply fit_walker. Qed.

(** A call all of whose iterations succeed, on an object whose walker
    has already made [k] walks from [wl]. *)
Lemma fit_all_succeed_from X y Xv0 yv0 w wl k Xt yt Xv yv :
  aligned (self w) ->
  walker_ (self w) = Nat.iter k walk wl ->
  resolve_split (self w) X y Xv0 yv0 = Ok (Xt, yt, Some Xv, Some yv) ->
  (forall i, (k <= i < k + Z.to_nat (nb_iter (self w)))%nat ->
             iteration_succeeds (score (self w)) Xt yt Xv yv wl i) ->
  exists w' de ds,
    fit X y Xv0 yv0 w = (w', Ok tt) /\
    appended (self w) (self w')
      (map (code_at wl) (seq k (Z.to_nat (nb_iter (self w))))) de ds.
Proof.
  intros Hal Hw Hres Hall. rewrite fit_unfold, Hres.
  destruct (@for_each_all_succeed E Xt yt Xv yv wl
              (Z.to_nat (nb_iter (self w))) 0%nat k w Hw Hall)
    as (w1 & de & ds & Hloop & A).
  unfold bind, range. rewrite Hloop.
  assert (G : grows (self w) (self w1)) by (eexists _, de, ds; exact A).
  pose proof (select_best_returns w1 (grows_aligned Hal G)) as Hret.
  destruct (select_best w1) as [w2 r2] eqn:Hsel. simpl in Hret. subst r2.
  pose proof (select_best_frame _ Hsel) as (_ & Hsame & _).
  exists w2, de, ds. split; [reflexivity|].
  eapply appended_same; eassumption.
Qed.

(** X4.  When the data is resolved and every iteration constructs,
    trains and scores its candidate, a call of [fit] returns and appends
    exactly [nb_iter] candidates, whose codes are the codes rendered
    from the successive states of the walker, in the order of the
    iterations. *)
Theorem X4_all_iterations_succeed :
  forall (X : list row) (y : list label)
         (X_valid : option (list row)) (y_valid : option (list label))
         (w : world) (X_train : list row) (y_train : list label)
         (Xv : list row) (yv : list label),
    aligned (self w) ->
    resolve_split (self w) X y X_valid y_valid
    = Ok (X_train, y_train, Some Xv, Some yv) ->
    (forall i, (i < Z.to_nat (nb_iter (self w)))%nat ->
               iteration_succeeds (score (self w)) X_train y_train Xv yv
                 (walker_ (self w)) i) ->
    exists w' de ds,
      fit X y X_valid y_valid w = (w', Ok tt) /\
      appended (self w) (self w')
        (map (code_at (walker_ (self w)))
             (seq 0 (Z.to_nat (nb_iter (self w))))) de ds /\
      length ds = Z.to_nat (nb_iter (self w)).
Proof.
  intros X y Xv0 yv0 w Xt yt Xv yv Hal Hres Hall.
  destruct (@fit_all_succeed_from X y Xv0 yv0 w (walker_ (self w)) 0%nat
              Xt yt Xv yv Hal eq_refl Hres)
    as (w' & de & ds & Hfit & A).
  { intros i Hi. apply Hall. lia. }
  exists w', de, ds. split; [exact Hfit|]. split; [exact A|].
  destruct A as (L1 & L2 & _). rewrite <- L2, <- L1, length_map, length_seq.
  reflexivity.
Qed.

End SearchFacts.

(* ------------------------------------------------------------------ *)
(** ** The output *)

Section Output.
Context {E : Collaborators}.

Ltac quiet_or_lines :=
  first [ solve [ exists []; split;
                  [symmetry; apply app_nil_r | reflexivity] ]
        | solve [ eexists; split;
                  [rewrite <- ?app_assoc; reflexivity
                  | intros; congruence] ] ].

Lemma iteration_output Xt yt Xv yv i w :
  exists lines,
    stdout (fst (iteration Xt yt Xv yv i w)) = stdout w ++ lines /\
    (truthy (verbose (self w)) = false -> lines = []).
Proof. unfold iteration. run. stepped; quiet_or_lines. Qed.

Lemma select_best_output w :
  exists lines,
    stdout (fst (select_best w)) = stdout w ++ lines /\
    (truthy (verbose (self w)) = false -> lines = []).
Proof. unfold select_best, index. run. stepped; quiet_or_lines. Qed.

Lemma output_then (o o1 o2 l1 l2 : list line) (P : Prop) :
  o1 = o ++ l1 -> (P -> l1 = []) ->
  o2 = o1 ++ l2 -> (P -> l2 = []) ->
  exists lines, o2 = o ++ lines /\ (P -> lines = []).
Proof.
  intros -> H1 -> H2. exists (l1 ++ l2). rewrite app_assoc.
  split; [reflexivity|]. intros HP. rewrite (H1 HP), (H2 HP). reflexivity.
Qed.

Lemma for_each_output Xt yt Xv yv l : forall w,
  exists lines,
    stdout (fst (for_each l (iteration Xt yt Xv yv) w)) = stdout w ++ lines /\
    (truthy (verbose (self w)) = false -> lines = []).
Proof.
  induction l as [|i rest IH]; intros w; simpl.
  - exists []. rewrite app_nil_r. auto.
  - destruct (iteration_output Xt yt Xv yv i w) as (l1 & H1 & Q1).
    unfold bind.
    destruct (iteration Xt yt Xv yv i w) as [w1 r1] eqn:Hit.
    pose proof (iteration_frame _ _ _ _ _ _ Hit) as ((_ & _ & _ & _ & Hv) & _).
    simpl in H1. destruct r1 as [[]|e].
    + destruct (IH w1) as (l2 & H2 & Q2). rewrite Hv in Q2.
      eapply output_then; eassumption.
    + exists l1. auto.
Qed.

(** X5.  A call of [fit] only adds lines to what has been printed, and
    adds none when [verbose] is zero. *)
Theorem X5_silent_unless_verbose :
  forall (X : list row) (y : list label)
         (X_valid : option (list row)) (y_valid : option (list label))
         (w : world),
    exists lines,
      stdout (fst (fit X y X_valid y_valid w)) = stdout w ++ lines /\
      (verbose (self w) = 0 -> lines = []).
Proof.
  intros X y Xv yv w.
  assert (Hgoal : exists lines,
             stdout (fst (fit X y Xv yv w)) = stdout w ++ lines /\
             (truthy (verbose (self w)) = false -> lines = [])).
  { rewrite fit_unfold.
    destruct (resolve_split (self w) X y Xv yv) as [[[[Xt yt] [a|]] [b|]]|e];
      try solve [exists []; simpl; rewrite app_nil_r; auto].
    destruct (for_each_output Xt yt a b (range (nb_iter (self w))) w)
      as (l1 & H1 & Q1).
    unfold bind.
    destruct (for_each _ _ w) as [w1 r1] eqn:Hloop.
    pose proof (for_each_frame _ _ _ _ _ _ Hloop) as ((_ & _ & _ & _ & Hv) & _).
    simpl in H1. destruct r1 as [[]|e].
    - destruct (select_best_output w1) as (l2 & H2 & Q2). rewrite Hv in Q2.
      eapply output_then; eassumption.
    - exists l1. auto. }
  destruct Hgoal as (lines & H1 & H2). exists lines. split; [exact H1|].
  intros Hz. apply H2. unfold truthy. rewrite Hz. reflexivity.
Qed.

(** The loop and the selection do the same to the object whatever
    [verbose] is. *)
Lemma iteration_verbose v Xt yt Xv yv i w1 w2 :
  self w2 = with_verbose v (self w1) ->
  self (fst (iteration Xt yt Xv yv i w2))
  = with_verbose v (self (fst (iteration Xt yt Xv yv i w1))) /\
  snd (iteration Xt yt Xv yv i w2) = snd (iteration Xt yt Xv yv i w1).
Proof.
  destruct w1 as [c1 o1], w2 as [c2 o2]. simpl. intros ->.
  unfold iteration. run.
  stepped; same_calls; try discriminate; split; reflexivity.
Qed.

Lemma for_each_verbose v Xt yt Xv yv l : forall w1 w2,
  self w2 = with_verbose v (self w1) ->
  self (fst (for_each l (iteration Xt yt Xv yv) w2))
  = with_verbose v (self (fst (for_each l (iteration Xt yt Xv yv) w1))) /\
  snd (for_each l (iteration Xt yt Xv yv) w2)
  = snd (for_each l (iteration Xt yt Xv yv) w1).
Proof.
  induction l as [|i rest IH]; intros w1 w2 H; simpl.
  - auto.
  - destruct (@iteration_verbose v Xt yt Xv yv i w1 w2 H) as (Hs & Hr).
    unfold bind.
    destruct (iteration Xt yt Xv yv i w1) as [w1' r1],
             (iteration Xt yt Xv yv i w2) as [w2' r2].
    simpl in Hs, Hr. subst r2. destruct r1 as [[]|e]; auto.
Qed.

Lemma select_best_verbose v w1 w2 :
  self w2 = with_verbose v (self w1) ->
  self (fst (select_best w2)) = with_verbose v (self (fst (select_best w1))) /\
  snd (select_best w2) = snd (select_best w1).
Proof.
  destruct w1 as [c1 o1], w2 as [c2 o2]. simpl. intros ->.
  unfold select_best, index. run.
  stepped; same_calls; try discriminate; split; reflexivity.
Qed.

(** X6.  The flag [verbose] changes nothing but the output: with any
    other value for it, a call of [fit] ends in the same way and leaves
    the same object, up to the flag itself. *)
Theorem X6_verbose_is_observational :
  forall (v : Z) (c : Classifier) (out out' : list line)
         (X : list row) (y : list label)
         (X_valid : option (list row)) (y_valid : option (list label)),
    self (fst (fit X y X_valid y_valid (mkWorld (with_verbose v c) out')))
    = with_verbose v (self (fst (fit X y X_valid y_valid (mkWorld c out)))) /\
    snd (fit X y X_valid y_valid (mkWorld (with_verbose v c) out'))
    = snd (fit X y X_valid y_valid (mkWorld c out)).
Proof.
  intros v c out out' X y Xv yv. rewrite !fit_unfold. cbn [self].
  change (resolve_split (with_verbose v c) X y Xv yv)
    with (resolve_split c X y Xv yv).
  destruct (resolve_split c X y Xv yv) as [[[[Xt yt] [a|]] [b|]]|e];
    try (split; reflexivity).
  change (nb_iter (with_verbose v c)) with (nb_iter c).
  destruct (@for_each_verbose v Xt yt a b (range (nb_iter c))
              (mkWorld c out) (mkWorld (with_verbose v c) out') eq_refl)
    as (Hs & Hr).
  unfold bind.
  destruct (for_each _ _ (mkWorld c out)) as [w1 r1],
           (for_each _ _ (mkWorld (with_verbose v c) out')) as [w2 r2].
  simpl in Hs, Hr. subst r2. destruct r1 as [[]|e]; [|auto].
  apply select_best_verbose. exact Hs.
Qed.

End Output.

(* ------------------------------------------------------------------ *)
(** ** Failures after the training, and the best candidate over time *)

Section Scoring.
Context {E : Collaborators}.

(** X7.  The prediction on the validation features and the scoring are
    outside the [try]: when one of them raises for a candidate that was
    trained, the loop ends there and the exception is raised to the
    caller; the candidate is not appended and the best-of fields are
    left as they were. *)
Theorem X7_scoring_failure_is_raised :
  forall (X_train : list row) (y_train : list label)
         (X_valid : list row) (y_valid : list label)
         (i : nat) (rest : list nat) (w : world),
    (forall clf0 clf e,
        py_eval (as_str (terminals (walk (walker_ (self w))))) = Ok clf0 ->
        clf_fit clf0 X_train y_train = Ok clf ->
        clf_predict clf X_valid = Raise e ->
        exists w',
          for_each (i :: rest) (iteration X_train y_train X_valid y_valid) w
          = (w', Raise (Foreign e)) /\
          same_candidates (self w) (self w') /\ same_best (self w) (self w'))
    /\
    (forall clf0 clf predicted e,
        py_eval (as_str (terminals (walk (walker_ (self w))))) = Ok clf0 ->
        clf_fit clf0 X_train y_train = Ok clf ->
        clf_predict clf X_valid = Ok predicted ->
        score (self w) y_valid predicted = Raise e ->
        exists w',
          for_each (i :: rest) (iteration X_train y_train X_valid y_valid) w
          = (w', Raise (Foreign e)) /\
          same_candidates (self w) (self w') /\ same_best (self w) (self w')).
Proof.
  intros Xt yt Xv yv i rest w. split.
  - intros clf0 clf e Hev Htr Hpr. simpl. unfold bind at 1.
    unfold iteration. run. rewrite Hev. simpl. rewrite Htr. simpl.
    rewrite Hpr. simpl. eexists. split; [reflexivity|]. simpl.
    repeat split.
  - intros clf0 clf p e Hev Htr Hpr Hsc. simpl. unfold bind at 1.
    unfold iteration. run. rewrite Hev. simpl. rewrite Htr. simpl.
    rewrite Hpr. simpl. rewrite Hsc. simpl.
    eexists. split; [reflexivity|]. simpl. repeat split.
Qed.

(** What a call of [fit] that raises has done. *)
Lemma fit_raising X y Xv yv w e :
  aligned (self w) ->
  snd (fit X y Xv yv w) = Raise e ->
  (e = AssertionError \/ exists f, e = Foreign f) /\
  same_best (self w) (self (fst (fit X y Xv yv w))) /\
  grows (self w) (self (fst (fit X y Xv yv w))).
Proof.
  intros Hal. rewrite fit_unfold.
  destruct (resolve_split (self w) X y Xv yv) as [[[[Xt yt] [a|]] [b|]]|f];
    simpl;
    try solve [intros H; inversion H; subst;
               split; [eauto|];
               split; [repeat split | apply grows_refl; repeat split]].
  unfold bind.
  destruct (for_each _ _ w) as [w1 r1] eqn:Hloop.
  pose proof (for_each_frame _ _ _ _ _ _ Hloop) as (_ & B & G).
  destruct r1 as [[]|e1].
  - pose proof (select_best_returns w1 (grows_aligned Hal G)) as Hret.
    intros H. congruence.
  - simpl. intros H. inversion H; subst.
    apply for_each_raises in Hloop. auto.
Qed.



(** The best-of fields keep pointing at their entries when candidates
    are appended. *)
Lemma best_at_grows c c' idx :
  aligned c -> grows c c' -> same_best c c' ->
  best_at c idx -> best_at c' idx.
Proof.
  intros (A1 & A2) (dc & de & ds & _ & _ & Hc & He & Hs) (B1 & B2 & B3)
         (Hlt & H1 & H2 & H3).
  unfold best_at. rewrite Hc, He, Hs, B1, B2, B3, length_app.
  rewrite !nth_error_app1 by lia. repeat split; auto; lia.
Qed.

(** After a call of [fit], the best-of fields are as before, or the call
    has returned and they are the entries where [np.argmax] points. *)
Lemma fit_best_cases X y Xv yv w :
  aligned (self w) ->
  same_best (self w) (self (fst (fit X y Xv yv w))) \/
  (snd (fit X y Xv yv w) = Ok tt /\
   exists idx,
     argmax_position (scores_ (self (fst (fit X y Xv yv w)))) idx /\
     best_at (self (fst (fit X y Xv yv w))) idx).
Proof.
  intros Hal. destruct (fit X y Xv yv w) as [w' [[]|e]] eqn:Hfit; simpl.
  - destruct (scores_ (self w')) eqn:Hs.
    + left. eapply fit_without_candidates; eassumption.
    + right. split; [reflexivity|]. rewrite <- Hs.
      eapply fit_selects; try eassumption. congruence.
  - left.
    pose proof (@fit_raising X y Xv yv w e Hal) as H.
    rewrite Hfit in H. apply H. reflexivity.
Qed.

(** The best-of fields of every object made by [__init__] and [fit]
    are unset or point into the lists. *)
Lemma reachable_best_in_lists c : reachable c -> best_in_lists c.
Proof.
  induction 1 as [|c out X y Xv yv w' res Hreach IH Hfit].
  - left. repeat split.
  - pose proof (reachable_aligned Hreach) as Hal.
    pose proof (@fit_best_cases X y Xv yv (mkWorld c out) Hal) as Hcases.
    pose proof (fit_frame _ _ _ _ _ Hfit) as (_ & G).
    rewrite Hfit in Hcases. simpl in Hcases, G.
    destruct Hcases as [Hsame|(_ & idx & _ & Hbest)].
    + destruct IH as [(N1 & N2 & N3)|(idx & Hbest)].
      * left. destruct Hsame as (B1 & B2 & B3).
        unfold no_best. repeat split; congruence.
      * right. exists idx. eapply best_at_grows; eassumption.
    + right. exists idx. exact Hbest.
Qed.

(** X9.  On every object made by [__init__] and calls of [fit],
    returned or raised, the fields [best_score_], [best_estimator_] and
    [best_estimator_code_] are all [None], or are the entries of
    [scores_], [estimators_] and [codes_] at one common index. *)
Theorem X9_best_fields_point_into_lists :
  forall (c : Classifier), reachable c -> best_in_lists c.
Proof. exact reachable_best_in_lists. Qed.

(** X10.  Over the calls of [fit] on an object, the best score never
    goes down as long as no score is NaN: once [best_score_] holds a
    score, after a further call, returned or raised, that leaves no NaN
    among the scores, it holds a score at least as large. *)
Theorem X10_best_score_never_decreases :
  forall (c : Classifier) (out : list line)
         (X : list row) (y : list label)
         (X_valid : option (list row)) (y_valid : option (list label))
         (s : float),
    reachable c ->
    best_score_ c = Some s ->
    (forall x,
        In x (scores_ (self (fst (fit X y X_valid y_valid (mkWorld c out)))))
        -> is_nan x = false) ->
    exists s',
      best_score_ (self (fst (fit X y X_valid y_valid (mkWorld c out))))
      = Some s' /\ SFleb s s' = true.
Proof.
  intros c out X y Xv yv s Hreach Hs Hnan.
  pose proof (reachable_aligned Hreach) as Hal.
  assert (Hin : In s (scores_ (self (fst (fit X y Xv yv (mkWorld c out)))))).
  { destruct (reachable_best_in_lists Hreach)
      as [(N1 & _)|(i & _ & Hi & _)]; [congruence|].
    rewrite Hs in Hi. symmetry in Hi. apply nth_error_In in Hi.
    destruct (fit X y Xv yv (mkWorld c out)) as [w' res] eqn:Hfit.
    pose proof (fit_frame _ _ _ _ _ Hfit)
      as (_ & dc & de & ds & _ & _ & _ & _ & Hsc).
    simpl in *. rewrite Hsc. apply in_or_app. auto. }
  destruct (@fit_best_cases X y Xv yv (mkWorld c out) Hal)
    as [(B1 & _)|(_ & idx & Hpos & (_ & Hb & _))];
    cbn [self] in *.
  - exists s. split; [congruence|]. apply SFleb_refl. apply Hnan. exact Hin.
  - destruct (argmax_position_without_nan Hpos Hnan)
      as (_ & smax & Hnth & Hmax & _).
    exists smax. split; [congruence|]. apply Hmax. exact Hin.
Qed.

(** X11.  After a call of [fit] that returns with at least one
    candidate, [predict] and [predict_proba] answer with the estimator
    at the index where [np.argmax] points in [scores_] (the first NaN,
    or the first maximum when no score is NaN): they return what it
    returns and raise what it raises. *)
Theorem X11_predict_uses_best_estimator :
  forall (X : list row) (y : list label)
         (X_valid : option (list row)) (y_valid : option (list label))
         (w w' : world),
    aligned (self w) ->
    fit X y X_valid y_valid w = (w', Ok tt) ->
    scores_ (self w') <> [] ->
    exists idx m,
      argmax_position (scores_ (self w')) idx /\
      nth_error (estimators_ (self w')) idx = Some m /\
      forall X0,
        predict (self w') X0
        = match clf_predict m X0 with
          | Ok p => Ok p
          | Raise e => Raise (Foreign e)
          end /\
        predict_proba (self w') X0
        = match clf_predict_proba m X0 with
          | Ok p => Ok p
          | Raise e => Raise (Foreign e)
          end.
Proof.
  intros X y Xv yv w w' Hal Hfit Hne.
  destruct (fit_selects _ _ _ _ _ Hal Hfit Hne)
    as (idx & Hmax & Hlt & _ & Hbest & _).
  pose proof (fit_frame _ _ _ _ _ Hfit) as (_ & G).
  destruct (grows_aligned Hal G) as (_ & A2).
  destruct (nth_error (estimators_ (self w')) idx) as [m|] eqn:Hm;
    [|apply nth_error_None in Hm; lia].
  exists idx, m. split; [exact Hmax|]. split; [exact Hm|].
  intros X0. unfold predict, predict_proba. rewrite Hbest. auto.
Qed.

End Scoring.

(* ------------------------------------------------------------------ *)
(** ** A ratio above one, and the default walker *)

Lemma slice_bound_negative {A : Type} (l : list A) k :
  k < 0 -> slice_bound l k = Z.to_nat (Z.max 0 (len l + k)).
Proof.
  intros Hk. unfold slice_bound. destruct (Z.ltb_spec k 0); [reflexivity|lia].
Qed.

Lemma len_slice_to_negative {A : Type} (l : list A) k :
  k < 0 -> len (slice_to l k) = Z.max 0 (len l + k).
Proof.
  intros Hk. unfold slice_to. rewrite slice_bound_negative by assumption.
  unfold len. rewrite length_firstn. lia.
Qed.

Lemma len_slice_from_negative {A : Type} (l : list A) k :
  k < 0 -> len (slice_from l k) = len l - Z.max 0 (len l + k).
Proof.
  intros Hk. unfold slice_from. rewrite slice_bound_negative by assumption.
  unfold len. rewrite length_skipn. lia.
Qed.

Section Beyond.
Context {E : Collaborators}.

(** X12.  A ratio above one is not refused as such.  When no
    validation data is given and the number [int(len(X) * valid_ratio)]
    is computed and exceeds the number of rows, the bound [nb_train] is
    negative and counts from the end: the validation part is the last
    rows of the shuffled data, as many as the number exceeds the rows,
    all of them from twice the rows on, and the training part is what
    is left, down to nothing. *)
Theorem X12_ratio_above_one_counts_from_the_end :
  forall (contract : ShuffleContract E) (c : Classifier)
         (X : list row) (y : list label) (p : number) (k : Z),
    0 <= random_state c < 2 ^ 32 ->
    length X = length y ->
    py_gt0 (valid_ratio c) = true ->
    py_mul_int (len X) (valid_ratio c) = Ok p ->
    py_int p = Ok k ->
    len X < k ->
    exists X_train y_train X_valid y_valid,
      resolve_split c X y None None
      = Ok (X_train, y_train, Some X_valid, Some y_valid) /\
      len X_valid = Z.min (len X) (k - len X) /\
      len X_train = len X - len X_valid /\
      len y_valid = len X_valid /\ len y_train = len X_train.
Proof.
  intros contract c X y p k Hseed Hlen Hpos Hp Hk Hbig.
  destruct (@shuffle_consistent E contract (random_state c) X y Hseed Hlen)
    as (X' & y' & Hsh & HX & Hy & _).
  assert (HlX : len X' = len X) by (unfold len; congruence).
  assert (Hly : len y' = len X) by (unfold len; congruence).
  rewrite <- HlX in Hp.
  do 4 eexists. split.
  { apply (resolve_split_by_ratio c X y Hpos Hsh Hp Hk). }
  rewrite !len_slice_from_negative, !len_slice_to_negative by lia.
  rewrite HlX, Hly. lia.
Qed.

(** The state in which [fit_in_process] leaves the default walker. *)
Lemma fit_in_process_default_walker a X y Xv yv p :
  shares_default_walker a = true ->
  snd (fit_in_process a X y Xv yv p) = Ok tt ->
  default_walker (snd (fst (fit_in_process a X y Xv yv p)))
  = Nat.iter (Z.to_nat (nb_iter (attributes a))) walk (default_walker p).
Proof.
  unfold fit_in_process. intros Hsh. rewrite Hsh.
  destruct (fit_walker X y Xv yv
              (mkWorld (set_walker (default_walker p) (attributes a))
                       (printed p)))
    as (k & _ & Hw & Hok).
  destruct (fit X y Xv yv _) as [w' res]. simpl in *.
  intros Hres. rewrite (Hok Hres) in Hw. exact Hw.
Qed.

(** X13.  The default walker is one object for all the instances built
    without a walker of their own: a call of [fit] on one of them, of
    [n] iterations, leaves the walker [n] walks further, and the next
    call of [fit] on another of them starts from there.  When all its
    [m] iterations succeed, the codes it appends are those of the walks
    [n + 1] to [n + m] of the default walker, not of the first [m]. *)
Theorem X13_default_walker_is_shared :
  forall (a b : instance) (p : process)
         (Xa : list row) (ya : list label)
         (Xva : option (list row)) (yva : option (list label))
         (X : list row) (y : list label)
         (X_valid : option (list row)) (y_valid : option (list label))
         (X_train : list row) (y_train : list label)
         (Xv : list row) (yv : list label),
    shares_default_walker a = true ->
    shares_default_walker b = true ->
    snd (fit_in_process a Xa ya Xva yva p) = Ok tt ->
    aligned (attributes b) ->
    resolve_split (attributes b) X y X_valid y_valid
    = Ok (X_train, y_train, Some Xv, Some yv) ->
    (forall i,
        (Z.to_nat (nb_iter (attributes a)) <= i
         < Z.to_nat (nb_iter (attributes a))
           + Z.to_nat (nb_iter (attributes b)))%nat ->
        iteration_succeeds (score (attributes b)) X_train y_train Xv yv
          (default_walker p) i) ->
    default_walker (snd (fst (fit_in_process a Xa ya Xva yva p)))
    = Nat.iter (Z.to_nat (nb_iter (attributes a))) walk (default_walker p) /\
    exists de ds,
      snd (fit_in_process b X y X_valid y_valid
             (snd (fst (fit_in_process a Xa ya Xva yva p)))) = Ok tt /\
      appended (attributes b)
        (attributes
           (fst (fst (fit_in_process b X y X_valid y_valid
                        (snd (fst (fit_in_process a Xa ya Xva yva p)))))))
        (map (code_at (default_walker p))
             (seq (Z.to_nat (nb_iter (attributes a)))
                  (Z.to_nat (nb_iter (attributes b)))))
        de ds.
Proof.
  intros a b p Xa ya Xva yva X y Xv0 yv0 Xt yt Xv yv Ha Hb Hret Hal Hres Hall.
  pose proof (fit_in_process_default_walker a Xa ya Xva yva p Ha Hret) as Hdw.
  split; [exact Hdw|].
  destruct (fit_in_process a Xa ya Xva yva p) as [[a' p1] ra].
  simpl in Hdw |- *. unfold fit_in_process. rewrite Hb.
  destruct (@fit_all_succeed_from E X y Xv0 yv0
              (mkWorld (set_walker (default_walker p1) (attributes b))
                       (printed p1))
              (default_walker p) (Z.to_nat (nb_iter (attributes a)))
              Xt yt Xv yv)
    as (w' & de & ds & Hfit & A).
  - exact Hal.
  - exact Hdw.
  - exact Hres.
  - exact Hall.
  - rewrite Hfit. simpl. exists de, ds. split; [reflexivity|exact A].
Qed.

End Beyond.

(* ------------------------------------------------------------------ *)
(** ** Two runs, and the candidates over the calls *)

Section Once.
Context {E : Collaborators}.

Lemma appended_unique c c' dc de ds dc' de' ds' :
  appended c c' dc de ds -> appended c c' dc' de' ds' ->
  dc = dc' /\ de = de' /\ ds = ds'.
Proof.
  intros (_ & _ & Hc & He & Hs) (_ & _ & Hc' & He' & Hs').
  rewrite Hc in Hc'. rewrite He in He'. rewrite Hs in Hs'.
  apply app_inv_head in Hc', He', Hs'. auto.
Qed.

(** What is computed from a code is determined by the code. *)
Lemma scored_candidate_unique sc Xt yt Xv yv code clf s clf' s' :
  scored_candidate sc Xt yt Xv yv (code, clf, s) ->
  scored_candidate sc Xt yt Xv yv (code, clf', s') ->
  clf = clf' /\ s = s'.
Proof.
  intros (a & p & H1 & H2 & H3 & H4) (a' & p' & H1' & H2' & H3' & H4').
  rewrite H1 in H1'. inversion H1'; subst a'.
  rewrite H2 in H2'. inversion H2'; subst clf'.
  rewrite H3 in H3'. inversion H3'; subst p'.
  rewrite H4 in H4'. inversion H4'. auto.
Qed.

(** The code of the one candidate that an iteration may append is the
    code rendered from the next state of the walker. *)
Lemma iteration_code Xt yt Xv yv i w :
  exists dc de ds,
    appended (self w) (self (fst (iteration Xt yt Xv yv i w))) dc de ds /\
    (length dc <= 1)%nat /\
    forall code, In code dc -> code = code_at (walker_ (self w)) 0.
Proof.
  unfold iteration, appended, code_at, walker_at. run.
  stepped;
    first [ solve [ exists [], [], []; simpl; rewrite ?app_nil_r;
                    repeat split; auto; intros ? [] ]
          | solve [ eexists [_], [_], [_]; simpl; repeat split; auto;
                    intros ? [<-|[]]; reflexivity ] ].
Qed.

Lemma fit_once_code X y Xv yv w :
  nb_iter (self w) = 1 ->
  exists dc de ds,
    appended (self w) (self (fst (fit X y Xv yv w))) dc de ds /\
    (length dc <= 1)%nat /\
    forall code, In code dc -> code = code_at (walker_ (self w)) 0.
Proof.
  intros Hn. rewrite fit_unfold.
  destruct (resolve_split (self w) X y Xv yv) as [[[[Xt yt] [a|]] [b|]]|e];
    try solve [exists [], [], []; simpl;
               split; [apply appended_nothing|];
               split; [lia|]; intros ? []].
  rewrite Hn. change (range 1) with [0%nat]. simpl.
  destruct (iteration_code Xt yt a b 0 w) as (dc & de & ds & A & L & Hcode).
  exists dc, de, ds. unfold bind.
  destruct (iteration Xt yt a b 0 w) as [w1 [[]|e]]; simpl in A |- *.
  - destruct (select_best w1) as [w2 r2] eqn:Hsel.
    pose proof (select_best_frame _ Hsel) as (_ & Hsame & _). simpl.
    split; [eapply appended_same; eassumption|]. auto.
  - auto.
Qed.

(** Two calls of one iteration, under the same collaborators, from the
    same walker state and with the same settings, append the same. *)
Lemma fit_once_agree c1 c2 out1 out2 X y Xv yv :
  nb_iter c1 = 1 -> nb_iter c2 = 1 ->
  walker_ c1 = walker_ c2 ->
  random_state c1 = random_state c2 ->
  valid_ratio c1 = valid_ratio c2 ->
  score c1 = score c2 ->
  exists dc de ds,
    appended c1 (self (fst (fit X y Xv yv (mkWorld c1 out1)))) dc de ds /\
    appended c2 (self (fst (fit X y Xv yv (mkWorld c2 out2)))) dc de ds.
Proof.
  intros Hn1 Hn2 Hw Hseed Hr Hsc.
  rewrite !fit_unfold. cbn [self].
  assert (Hres : resolve_split c1 X y Xv yv = resolve_split c2 X y Xv yv).
  { unfold resolve_split. rewrite Hseed, Hr. reflexivity. }
  rewrite Hres, Hn1, Hn2.
  destruct (resolve_split c2 X y Xv yv) as [[[[Xt yt] [a|]] [b|]]|e];
    try solve [exists [], [], []; simpl; split; apply appended_nothing].
  destruct (@for_each_agree E Xt yt a b (range 1) (mkWorld c1 out1)
              (mkWorld c2 out2))
    as (dc & de & ds & A1 & A2 & _).
  { split; assumption. }
  cbn [self] in A1, A2. unfold bind.
  destruct (for_each (range 1) (iteration Xt yt a b) (mkWorld c1 out1))
    as [w1 r1] eqn:H1.
  destruct (for_each (range 1) (iteration Xt yt a b) (mkWorld c2 out2))
    as [w2 r2] eqn:H2.
  simpl in A1, A2. exists dc, de, ds.
  assert (Hafter : forall (w0 : world) (r0 : result exn unit) c0,
             appended c0 (self w0) dc de ds ->
             appended c0
               (self (fst (match r0 with
                           | Ok _ => select_best w0
                           | Raise e => (w0, @Raise exn unit e)
                           end))) dc de ds).
  { intros w0 [[]|e0] c0 A0; simpl; [|exact A0].
    destruct (select_best w0) as [w0' r0'] eqn:S0.
    pose proof (select_best_frame _ S0) as (_ & C0 & _).
    eapply appended_same; eassumption. }
  split; apply Hafter; assumption.
Qed.

(** What a call of [fit] appends when all its iterations succeed,
    whatever the lists of the object are. *)
Lemma fit_appends_all X y Xv0 yv0 w Xt yt Xv yv :
  resolve_split (self w) X y Xv0 yv0 = Ok (Xt, yt, Some Xv, Some yv) ->
  (forall i, (i < Z.to_nat (nb_iter (self w)))%nat ->
             iteration_succeeds (score (self w)) Xt yt Xv yv
               (walker_ (self w)) i) ->
  exists de ds,
    appended (self w) (self (fst (fit X y Xv0 yv0 w)))
      (map (code_at (walker_ (self w)))
           (seq 0 (Z.to_nat (nb_iter (self w))))) de ds.
Proof.
  intros Hres Hall. rewrite fit_unfold, Hres.
  destruct (@for_each_all_succeed E Xt yt Xv yv (walker_ (self w))
              (Z.to_nat (nb_iter (self w))) 0%nat 0%nat w eq_refl)
    as (w1 & de & ds & Hloop & A).
  { intros i Hi. apply Hall. lia. }
  unfold bind, range. rewrite Hloop.
  destruct (select_best w1) as [w2 r2] eqn:Hsel.
  pose proof (select_best_frame _ Hsel) as (_ & Hsame & _).
  exists de, ds. simpl. eapply appended_same; eassumption.
Qed.

(** C10.  On every object made by [__init__] and calls of [fit], the
    lists [codes_], [estimators_] and [scores_] have one length.  A call
    of [fit] never empties them: it leaves them as the lists of the
    earlier calls followed by the candidates of this call, each computed
    from the data of this call, and as many as [nb_iter], with the codes
    of the successive walks, when every iteration succeeds.  When the
    call returns and there is a candidate, the best-of fields are set
    from where [np.argmax] points in all of these scores, those of
    earlier calls included. *)
Theorem C10_candidates_accumulate :
  forall (c : Classifier),
    reachable c ->
    aligned c /\
    forall (X : list row) (y : list label)
           (X_valid : option (list row)) (y_valid : option (list label))
           (out : list line) (w' : world) (res : result exn unit),
      fit X y X_valid y_valid (mkWorld c out) = (w', res) ->
      aligned (self w') /\
      exists dc de ds,
        appended c (self w') dc de ds /\
        (forall X_train y_train Xv yv,
            resolve_split c X y X_valid y_valid
            = Ok (X_train, y_train, Some Xv, Some yv) ->
            Forall (scored_candidate (score c) X_train y_train Xv yv)
                   (records dc de ds) /\
            ((forall i, (i < Z.to_nat (nb_iter c))%nat ->
                        iteration_succeeds (score c) X_train y_train Xv yv
                          (walker_ c) i) ->
             res = Ok tt /\
             dc = map (code_at (walker_ c)) (seq 0 (Z.to_nat (nb_iter c))) /\
             length ds = Z.to_nat (nb_iter c))) /\
        (res = Ok tt -> scores_ c ++ ds <> [] ->
         exists idx,
           argmax_position (scores_ c ++ ds) idx /\
           best_score_ (self w') = nth_error (scores_ c ++ ds) idx /\
           best_estimator_ (self w')
           = nth_error (estimators_ c ++ de) idx /\
           best_estimator_code_ (self w')
           = nth_error (codes_ c ++ dc) idx).
Proof.
  intros c Hreach. pose proof (reachable_aligned Hreach) as Hal.
  split; [exact Hal|].
  intros X y Xv yv out w' res Hfit.
  pose proof (fit_frame _ _ _ _ _ Hfit) as (_ & G). cbn [self] in G.
  split; [eapply grows_aligned; eassumption|].
  destruct (fit_records X y Xv yv (mkWorld c out))
    as (dc & de & ds & A & _ & Hrec).
  rewrite Hfit in A. cbn [self fst] in A, Hrec.
  exists dc, de, ds. split; [exact A|]. split.
  - intros Xt yt a b Hres. split; [apply Hrec; exact Hres|].
    intros Hall.
    destruct (@fit_all_succeed_from E X y Xv yv (mkWorld c out) (walker_ c)
                0%nat Xt yt a b Hal eq_refl Hres)
      as (w'' & de' & ds' & Hfit' & A').
    { intros i Hi. apply Hall. cbn [self] in Hi. lia. }
    rewrite Hfit in Hfit'. inversion Hfit'; subst w''.
    cbn [self] in A'.
    destruct (appended_unique A A') as (-> & -> & ->).
    split; [reflexivity|]. split; [reflexivity|].
    destruct A' as (L1 & L2 & _).
    rewrite <- L2, <- L1, length_map, length_seq. reflexivity.
  - intros -> Hne.
    destruct A as (_ & _ & Hc & He & Hs). rewrite <- Hs in Hne.
    destruct (fit_selects _ _ _ _ (mkWorld c out) Hal Hfit Hne)
      as (idx & Hmax & _ & B1 & B2 & B3).
    exists idx. rewrite <- Hs, <- He, <- Hc. auto.
Qed.

End Once.

Section TwoRuns.
Variable R : RandomCollaborators.

(** C9 (amended).  Two calls of [fit] with [nb_iter = 1] on the same
    data, made on objects that have the same walker state, the same
    [random_state] and the same [valid_ratio], in two runs that may draw
    different random numbers: each appends at most one candidate, and
    the code of a candidate appended by either is the one code rendered
    from the next state of the walker.  When moreover the two runs draw
    the same random numbers and use the same scoring function, they
    append the same candidate, with the same score, or nothing in both.
    In a run whose iteration constructs, trains and scores its
    candidate, that candidate, with that score, is what the call
    appends.  [random_state] seeds the shuffle only. *)
Theorem C9_single_iteration_deterministic :
  forall (g1 g2 : entropy R)
         (c1 : @Classifier (run_with R g1))
         (c2 : @Classifier (run_with R g2))
         (out1 out2 : list line)
         (X : list (r_row R)) (y : list (r_label R))
         (X_valid : option (list (r_row R)))
         (y_valid : option (list (r_label R))),
    nb_iter c1 = 1 -> nb_iter c2 = 1 ->
    walker_ c1 = walker_ c2 ->
    random_state c1 = random_state c2 ->
    valid_ratio c1 = valid_ratio c2 ->
    exists dc1 de1 ds1 dc2 de2 ds2,
      appended c1
        (self (fst (fit (E := run_with R g1) X y X_valid y_valid
                     (mkWorld c1 out1))))
        dc1 de1 ds1 /\
      appended c2
        (self (fst (fit (E := run_with R g2) X y X_valid y_valid
                     (mkWorld c2 out2))))
        dc2 de2 ds2 /\
      (length dc1 <= 1)%nat /\ (length dc2 <= 1)%nat /\
      (forall code,
          In code dc1 \/ In code dc2 ->
          code = r_as_str R (r_terminals R (r_walk R (walker_ c1)))) /\
      (g1 = g2 -> score c1 = score c2 ->
       dc1 = dc2 /\ de1 = de2 /\ ds1 = ds2) /\
      (forall X_train y_train Xv yv clf s,
          resolve_split c1 X y X_valid y_valid
          = Ok (X_train, y_train, Some Xv, Some yv) ->
          scored_candidate (score c1) X_train y_train Xv yv
            (r_as_str R (r_terminals R (r_walk R (walker_ c1))), clf, s) ->
          dc1 = [r_as_str R (r_terminals R (r_walk R (walker_ c1)))] /\
          de1 = [clf] /\ ds1 = [s]).
Proof.
  intros g1 g2 c1 c2 out1 out2 X y Xv yv Hn1 Hn2 Hw Hseed Hr.
  destruct (@fit_once_code (run_with R g1) X y Xv yv (mkWorld c1 out1) Hn1)
    as (dc1 & de1 & ds1 & A1 & L1 & Hcode1).
  destruct (@fit_once_code (run_with R g2) X y Xv yv (mkWorld c2 out2) Hn2)
    as (dc2 & de2 & ds2 & A2 & L2 & Hcode2).
  cbn [self] in A1, A2, Hcode1, Hcode2.
  exists dc1, de1, ds1, dc2, de2, ds2.
  split; [exact A1|]. split; [exact A2|].
  split; [exact L1|]. split; [exact L2|]. split; [|split].
  - intros code [Hin|Hin].
    + apply (Hcode1 code Hin).
    + rewrite (Hcode2 code Hin). unfold code_at, walker_at. simpl.
      rewrite <- Hw. reflexivity.
  - intros Hg Hsc. subst g2.
    destruct (@fit_once_agree (run_with R g1) c1 c2 out1 out2 X y Xv yv
                Hn1 Hn2 Hw Hseed Hr Hsc)
      as (dc & de & ds & B1 & B2).
    destruct (appended_unique A1 B1) as (-> & -> & ->).
    destruct (appended_unique A2 B2) as (-> & -> & ->).
    repeat split.
  - intros Xt yt a b clf s Hres Hcand.
    destruct (@fit_appends_all (run_with R g1) X y Xv yv (mkWorld c1 out1)
                Xt yt a b Hres)
      as (de & ds & B).
    { cbn [self]. rewrite Hn1. intros i Hi.
      assert (i = 0%nat) by (simpl in Hi; lia). subst i.
      exists clf, s. exact Hcand. }
    cbn [self] in B. rewrite Hn1 in B.
    destruct (appended_unique A1 B) as (-> & -> & ->).
    destruct (@fit_records (run_with R g1) X y Xv yv (mkWorld c1 out1))
      as (dc' & de' & ds' & B' & _ & Hrec).
    cbn [self] in B', Hrec.
    destruct (appended_unique B B') as (<- & <- & <-).
    specialize (Hrec Xt yt a b Hres).
    destruct B as (Ld & Le & _).
    destruct de as [|clf' [|? ?]]; try discriminate.
    destruct ds as [|s' [|? ?]]; try discriminate.
    inversion Hrec as [|? ? Hfirst _]; subst.
    destruct (scored_candidate_unique Hcand Hfirst) as (-> & ->).
    repeat split.
Qed.

End TwoRuns.

(* ------------------------------------------------------------------ *)
(** ** The further properties on the small collaborators *)

Section MoreExamples.
#[local] Existing Instance Toy.toy.

Lemma X2_witness :
  exists dc de ds,
    appended (self (Toy.fresh 2 ["Always(True)"; "Fragile()"] 0 0))
      (self (fst (fit Toy.X4 Toy.y4 None None
                    (Toy.fresh 2 ["Always(True)"; "Fragile()"] 0 0))))
      dc de ds /\
    Forall (scored_candidate Toy.accuracy_score Toy.X4 Toy.y4 Toy.X4 Toy.y4)
           (records dc de ds).
Proof.
  apply (X2_appended_records_are_consistent Toy.X4 Toy.y4 None None
           (Toy.fresh 2 ["Always(True)"; "Fragile()"] 0 0)).
  reflexivity.
Defined.

Lemma X4_witness :
  exists w' de ds,
    fit Toy.X4 Toy.y4 None None
      (Toy.fresh 2 ["Always(True)"; "Always(False)"] 0 0) = (w', Ok tt) /\
    appended (self (Toy.fresh 2 ["Always(True)"; "Always(False)"] 0 0))
      (self w') ["Always(True)"; "Always(False)"] de ds /\
    length ds = 2%nat.
Proof.
  apply (@X4_all_iterations_succeed Toy.toy Toy.X4 Toy.y4 None None
           (Toy.fresh 2 ["Always(True)"; "Always(False)"] 0 0)
           Toy.X4 Toy.y4 Toy.X4 Toy.y4).
  - split; reflexivity.
  - reflexivity.
  - intros i Hi. destruct i as [|[|i]].
    + exists (Toy.Always true), (Toy.ratio 3 4), (Toy.Always true),
        [true; true; true; true]. repeat split.
    + exists (Toy.Always false), (Toy.ratio 1 4), (Toy.Always false),
        [false; false; false; false]. repeat split.
    + simpl in Hi. lia.
Defined.

Lemma X5_witness :
  stdout (fst (fit Toy.X4 Toy.y4 None None
                 (Toy.fresh 2 ["Always(True)"; "Fragile()"] 0 0)))
  = [].
Proof.
  destruct (X5_silent_unless_verbose Toy.X4 Toy.y4 None None
              (Toy.fresh 2 ["Always(True)"; "Fragile()"] 0 0))
    as (lines & Hout & Hquiet).
  rewrite Hout, (Hquiet eq_refl). reflexivity.
Defined.

Lemma X7_witness :
  (exists w',
      for_each [0%nat]
        (iteration (E := Lenient.lenient)
                   Lenient.X4 Lenient.y4 Lenient.X4 Lenient.y4)
        (Lenient.fresh 1 ["Fragile()"])
      = (w', Raise (Foreign (mkForeign "NotFittedError" true EmptyString)))) /\
  (exists w',
      for_each [0%nat] (iteration Toy.X4 Toy.y4 Toy.X4 Toy.y2)
        (Lenient.strict 1 ["Always(True)"])
      = (w', Raise (Foreign (mkForeign "ValueError" true
                               "inconsistent numbers of samples")))).
Proof.
  split.
  - destruct (proj1 (X7_scoring_failure_is_raised (E := Lenient.lenient)
                       Lenient.X4 Lenient.y4 Lenient.X4 Lenient.y4 0 []
                       (Lenient.fresh 1 ["Fragile()"]))
                Toy.Fragile Toy.Fragile
                (mkForeign "NotFittedError" true EmptyString)
                eq_refl eq_refl eq_refl)
      as (w' & Hloop & _).
    exists w'. exact Hloop.
  - destruct (proj2 (X7_scoring_failure_is_raised
                       Toy.X4 Toy.y4 Toy.X4 Toy.y2 0 []
                       (Lenient.strict 1 ["Always(True)"]))
                (Toy.Always true) (Toy.Always true)
                [true; true; true; true]
                (mkForeign "ValueError" true
                   "inconsistent numbers of samples")
                eq_refl eq_refl eq_refl eq_refl)
      as (w' & Hloop & _).
    exists w'. exact Hloop.
Defined.


(** The object left by a first call of [fit] that scores one candidate. *)
Lemma fitted_once_reachable :
  reachable (self (fst (fit Toy.X4 Toy.y4 None None
                          (Toy.fresh 1 ["Always(False)"; "Always(True)"]
                             0 0)))).
Proof.
  apply reachable_fit
    with (c := self (Toy.fresh 1 ["Always(False)"; "Always(True)"] 0 0))
         (out := []) (X := Toy.X4) (y := Toy.y4) (Xv := None) (yv := None)
         (res := Ok tt).
  - apply reachable_init.
  - apply ended_with. vm_compute. reflexivity.
Defined.

Lemma X9_witness :
  best_in_lists
    (self (fst (fit Toy.X4 Toy.y4 None None
                  (Toy.fresh 1 ["Always(False)"; "Always(True)"] 0 0)))).
Proof.
  apply X9_best_fields_point_into_lists. exact fitted_once_reachable.
Defined.

Lemma X10_witness :
  exists s',
    best_score_
      (self (fst (fit Toy.X4 Toy.y4 None None
         (mkWorld
            (self (fst (fit Toy.X4 Toy.y4 None None
                          (Toy.fresh 1 ["Always(False)"; "Always(True)"]
                             0 0))))
            []))))
    = Some s' /\ SFleb (Toy.ratio 1 4) s' = true.
Proof.
  apply X10_best_score_never_decreases.
  - exact fitted_once_reachable.
  - vm_compute. reflexivity.
  - vm_compute. intros x [<-|[<-|[]]]; reflexivity.
Defined.

Lemma X11_witness :
  exists idx m,
    argmax_position
      (scores_ (self (fst (fit Toy.X4 Toy.y4 None None
         (Toy.fresh 2 ["Always(False)"; "Always(True)"] 0 0))))) idx /\
    nth_error
      (estimators_ (self (fst (fit Toy.X4 Toy.y4 None None
         (Toy.fresh 2 ["Always(False)"; "Always(True)"] 0 0))))) idx
    = Some m /\
    predict (self (fst (fit Toy.X4 Toy.y4 None None
         (Toy.fresh 2 ["Always(False)"; "Always(True)"] 0 0)))) Toy.X2
    = match clf_predict m Toy.X2 with
      | Ok p => Ok p
      | Raise e => Raise (Foreign e)
      end.
Proof.
  destruct (@X11_predict_uses_best_estimator Toy.toy
              Toy.X4 Toy.y4 None None
              (Toy.fresh 2 ["Always(False)"; "Always(True)"] 0 0)
              (fst (fit Toy.X4 Toy.y4 None None
                      (Toy.fresh 2 ["Always(False)"; "Always(True)"]
                         0 0))))
    as (idx & m & Hmax & Hm & Hpred).
  - split; reflexivity.
  - apply ended_with. vm_compute. reflexivity.
  - vm_compute. discriminate.
  - exists idx, m. split; [exact Hmax|]. split; [exact Hm|].
    apply (Hpred Toy.X2).
Defined.

Lemma X12_witness :
  exists X_train y_train X_valid y_valid,
    resolve_split (self (Toy.fresh 1 [] (PyFloat (Toy.ratio 3 2)) 0))
      Toy.X2 Toy.y2 None None
    = Ok (X_train, y_train, Some X_valid, Some y_valid) /\
    len X_valid = 1 /\ len X_train = 1.
Proof.
  destruct (@X12_ratio_above_one_counts_from_the_end Toy.toy
              toy_shuffle_contract
              (self (Toy.fresh 1 [] (PyFloat (Toy.ratio 3 2)) 0))
              Toy.X2 Toy.y2 (PyFloat (float_of_Z 3)) 3)
    as (Xt & yt & Xv & yv & Hres & Hv & Ht & _).
  - vm_compute. split; [discriminate|reflexivity].
  - reflexivity.
  - reflexivity.
  - vm_compute. reflexivity.
  - vm_compute. reflexivity.
  - reflexivity.
  - exists Xt, yt, Xv, yv. split; [exact Hres|].
    rewrite Ht, Hv. split; reflexivity.
Defined.

Lemma X13_witness :
  exists de ds,
    appended
      (attributes (Lenient.by_default Lenient.two_codes))
      (attributes
         (fst (fst (fit_in_process
            (Lenient.by_default Lenient.two_codes)
            Toy.X4 Toy.y4 None None
            (snd (fst (fit_in_process
               (Lenient.by_default Lenient.two_codes)
               Toy.X4 Toy.y4 None None Lenient.two_codes)))))))
      ["Always(True)"] de ds.
Proof.
  destruct (@X13_default_walker_is_shared Toy.toy
              (Lenient.by_default Lenient.two_codes)
              (Lenient.by_default Lenient.two_codes)
              Lenient.two_codes
              Toy.X4 Toy.y4 None None Toy.X4 Toy.y4 None None
              Toy.X4 Toy.y4 Toy.X4 Toy.y4
              eq_refl eq_refl)
    as (_ & de & ds & _ & A).
  - vm_compute. reflexivity.
  - split; reflexivity.
  - reflexivity.
  - intros i Hi. destruct i as [|[|i]].
    + simpl in Hi. lia.
    + exists (Toy.Always true), (Toy.ratio 3 4), (Toy.Always true),
        [true; true; true; true]. repeat split.
    + simpl in Hi. lia.
  - exists de, ds. exact A.
Defined.

(** C9 is false as stated: two runs on the same data, with the same
    seed, the same walker state and all the same settings, render the
    same code, and the coin tossed by the training gives them different
    scores. *)
Lemma C9_training_randomness_changes_score :
  codes_ (self (fst (fit (E := run_with Coin.coin true)
                       (Coin.X4 true) (Coin.y4 true) None None
                       (Coin.fresh true)))) = ["Coin()"] /\
  codes_ (self (fst (fit (E := run_with Coin.coin false)
                       (Coin.X4 false) (Coin.y4 false) None None
                       (Coin.fresh false)))) = ["Coin()"] /\
  scores_ (self (fst (fit (E := run_with Coin.coin true)
                        (Coin.X4 true) (Coin.y4 true) None None
                        (Coin.fresh true)))) = [Toy.ratio 3 4] /\
  scores_ (self (fst (fit (E := run_with Coin.coin false)
                        (Coin.X4 false) (Coin.y4 false) None None
                        (Coin.fresh false)))) = [Toy.ratio 1 4] /\
  SFeqb (Toy.ratio 3 4) (Toy.ratio 1 4) = false /\
  walker_ (self (Coin.fresh true)) = walker_ (self (Coin.fresh false)) /\
  random_state (self (Coin.fresh true))
  = random_state (self (Coin.fresh false)) /\
  valid_ratio (self (Coin.fresh true))
  = valid_ratio (self (Coin.fresh false)).
Proof. vm_compute. repeat split. Qed.

Lemma C9_witness :
  exists de,
    appended (self (Coin.fresh true))
      (self (fst (fit (E := run_with Coin.coin true)
                    (Coin.X4 true) (Coin.y4 true) None None
                    (Coin.fresh true))))
      ["Coin()"] de [Toy.ratio 3 4].
Proof.
  destruct (@C9_single_iteration_deterministic Coin.coin true true
              (self (Coin.fresh true)) (self (Coin.fresh true)) [] []
              (Coin.X4 true) (Coin.y4 true) None None
              eq_refl eq_refl eq_refl eq_refl eq_refl)
    as (dc1 & de1 & ds1 & dc2 & de2 & ds2 & A1 & _ & _ & _ & _ & _ & Hone).
  destruct (Hone (Coin.X4 true) (Coin.y4 true) (Coin.X4 true) (Coin.y4 true)
              (Coin.Answers true) (Toy.ratio 3 4) eq_refl)
    as (Hc & He & Hs).
  - exists Coin.Untrained, [true; true; true; true]. repeat split.
  - exists de1. rewrite Hc, Hs in A1. exact A1.
Defined.

(** The object left by a first call of [fit], which scores three
    quarters, then fitted again. *)
Lemma C10_witness :
  scores_
    (self (fst (fit Toy.X4 Toy.y4 None None
                  (Toy.fresh 1 ["Always(True)"; "Always(False)"] 0 0))))
  = [Toy.ratio 3 4] /\
  exists de ds idx,
    appended
      (self (fst (fit Toy.X4 Toy.y4 None None
                    (Toy.fresh 1 ["Always(True)"; "Always(False)"] 0 0))))
      (self (fst (fit Toy.X4 Toy.y4 None None
         (mkWorld
            (self (fst (fit Toy.X4 Toy.y4 None None
                          (Toy.fresh 1 ["Always(True)"; "Always(False)"]
                             0 0))))
            []))))
      ["Always(False)"] de ds /\
    length ds = 1%nat /\
    argmax_position ([Toy.ratio 3 4] ++ ds) idx /\
    best_score_
      (self (fst (fit Toy.X4 Toy.y4 None None
         (mkWorld
            (self (fst (fit Toy.X4 Toy.y4 None None
                          (Toy.fresh 1 ["Always(True)"; "Always(False)"]
                             0 0))))
            []))))
    = nth_error ([Toy.ratio 3 4] ++ ds) idx.
Proof.
  assert (Hreach : reachable
            (self (fst (fit Toy.X4 Toy.y4 None None
               (Toy.fresh 1 ["Always(True)"; "Always(False)"] 0 0))))).
  { apply reachable_fit
      with (c := self (Toy.fresh 1 ["Always(True)"; "Always(False)"] 0 0))
           (out := []) (X := Toy.X4) (y := Toy.y4) (Xv := None) (yv := None)
           (res := Ok tt).
    - apply reachable_init.
    - apply ended_with. vm_compute. reflexivity. }
  assert (Hscores : scores_
            (self (fst (fit Toy.X4 Toy.y4 None None
               (Toy.fresh 1 ["Always(True)"; "Always(False)"] 0 0))))
            = [Toy.ratio 3 4]) by (vm_compute; reflexivity).
  split; [exact Hscores|].
  destruct (C10_candidates_accumulate Hreach) as (_ & Hfit).
  assert (Hrun :
            fit Toy.X4 Toy.y4 None None
              (mkWorld
                 (self (fst (fit Toy.X4 Toy.y4 None None
                    (Toy.fresh 1 ["Always(True)"; "Always(False)"] 0 0))))
                 [])
            = (fst (fit Toy.X4 Toy.y4 None None
                 (mkWorld
                    (self (fst (fit Toy.X4 Toy.y4 None None
                       (Toy.fresh 1 ["Always(True)"; "Always(False)"]
                          0 0))))
                    [])),
               Ok tt)).
  { apply ended_with. vm_compute. reflexivity. }
  destruct (Hfit _ _ _ _ _ _ _ Hrun)
    as (_ & dc & de & ds & A & Hall & Hbest).
  destruct (Hall Toy.X4 Toy.y4 Toy.X4 Toy.y4 eq_refl) as (_ & Hsucc).
  destruct Hsucc as (_ & Hdc & Hlen).
  { intros i Hi. destruct i as [|i]; [|simpl in Hi; lia].
    exists (Toy.Always false), (Toy.ratio 1 4), (Toy.Always false),
      [false; false; false; false]. repeat split. }
  destruct (Hbest eq_refl) as (idx & Hpos & Hscore & _).
  { rewrite Hscores. discriminate. }
  exists de, ds, idx. rewrite Hscores in Hpos, Hscore.
  split; [rewrite Hdc in A; exact A|].
  split; [exact Hlen|]. split; [exact Hpos|exact Hscore].
Defined.

End MoreExamples.
